(** * PROLB3: a task queue over a SQLite table

    Shallow embedding of [src/PROLB3.py]: the [DBManager] class (one table
    [tasks] reached through a sqlite3 connection) and the [TaskManager]
    class (a [deque] of task ids kept next to that table).

    Python state is passed explicitly.  Everything the two classes print is
    kept, as a list of [message]s, because the only difference between the
    "queue empty" and the "task not found" results of [process_next_task]
    is the line that is printed.  A [sqlite3.Error] is an exception of the
    embedding: the statements of the storage engine may raise it, and the
    [try]/[except] blocks of [DBManager] are written out. *)

From Stdlib Require Import ZArith List String Bool Lia.
From Stdlib Require Import Sorted.
Import ListNotations.
Open Scope string_scope.
Open Scope list_scope.
Open Scope Z_scope.

(** ** Data *)

(** The four status texts the program writes into column [status]. *)
Definition PENDING : string := "Очікує".
Definition IN_PROGRESS : string := "В процесі".
Definition DONE : string := "Виконано".
Definition FAILED : string := "Помилка".

(** A row of table [tasks], which is also the dict that [get_all_tasks] and
    [get_task_by_id] build from it. *)
Record task : Type := mkTask {
  id : Z;
  user : string;
  description : string;
  status : string;
  timestamp : string
}.

(** The exception class [sqlite3.Error], with its text.  The embedding keeps
    with an error the call that raises it: [Error] the first call of a block
    to the storage engine ([sqlite3.connect], [cursor.execute]),
    [ErrorOnCommit] the call [conn.commit()]. *)
Inductive sqlite3_Error : Type :=
| Error (text : string)
| ErrorOnCommit (text : string).

Definition on_commit (e : sqlite3_Error) : bool :=
  match e with
  | Error _ => false
  | ErrorOnCommit _ => true
  end.

(** What the storage engine does in one [try] block of [DBManager]: [None]
    when it carries the block out, [Some e] when the block meets the error
    [e].  An [Error] is met at the statement that opens the block, before
    anything is read or written.  An [ErrorOnCommit] is met at
    [conn.commit()], after the statement of the block has taken effect, and
    nothing rolls that effect back; a block without [commit] meets it at its
    statement, like an [Error]. *)
Definition fault : Type := option sqlite3_Error.

(** The lines the program prints. *)
Inductive message : Type :=
| MsgConnected
| MsgConnectError (e : sqlite3_Error)
| MsgTableChecked
| MsgCreateTableError (e : sqlite3_Error)
| MsgAddError (e : sqlite3_Error)
| MsgUpdateError (task_id : Z) (e : sqlite3_Error)
| MsgGetAllError (e : sqlite3_Error)
| MsgGetError (task_id : Z) (e : sqlite3_Error)
| MsgClosed
| MsgBanner
| MsgLoaded (n : nat)
| MsgQueueStatus (queue : list Z)
| MsgAdded (user_id : string) (task_id : Z) (task_description : string)
| MsgQueueEmpty
| MsgProcessing (task_id : Z) (user_id : string) (task_description : string)
| MsgResult (task_id : Z) (task_description : string) (new_status : string)
| MsgNotFound (task_id : Z)
| MsgReport (total processed_count unprocessed_count : Z)
            (processed_list unprocessed_list : list task).

(** ** Computations: state, printed lines and exceptions *)

Inductive outcome (A : Type) : Type :=
| Return (a : A)
| Raise (e : sqlite3_Error).
Arguments Return {A} a.
Arguments Raise {A} e.

Definition Py (S A : Type) : Type := S -> outcome A * S * list message.

Definition ret {S A} (a : A) : Py S A := fun s => (Return a, s, []).

Definition raise {S A} (e : sqlite3_Error) : Py S A := fun s => (Raise e, s, []).

Definition bind {S A B} (m : Py S A) (k : A -> Py S B) : Py S B :=
  fun s =>
    match m s with
    | (Return a, s1, out1) =>
        match k a s1 with
        | (r, s2, out2) => (r, s2, out1 ++ out2)
        end
    | (Raise e, s1, out1) => (Raise e, s1, out1)
    end.

(** [try: body except sqlite3.Error as e: handler e] *)
Definition try_except {S A} (body : Py S A) (handler : sqlite3_Error -> Py S A)
  : Py S A :=
  fun s =>
    match body s with
    | (Return a, s1, out1) => (Return a, s1, out1)
    | (Raise e, s1, out1) =>
        match handler e s1 with
        | (r, s2, out2) => (r, s2, out1 ++ out2)
        end
    end.

Definition print {S} (m : message) : Py S unit := fun s => (Return tt, s, [m]).

Definition get {S} : Py S S := fun s => (Return s, s, []).

Definition put {S} (s : S) : Py S unit := fun _ => (Return tt, s, []).

Notation "x <- m ;; k" := (bind m (fun x => k))
  (at level 61, m at next level, right associativity).
Notation "m ;; k" := (bind m (fun _ => k))
  (at level 61, right associativity).

(** Projections of the result of running a computation. *)
Definition result {A S} (r : outcome A * S * list message) : outcome A := fst (fst r).
Definition final {A S} (r : outcome A * S * list message) : S := snd (fst r).
Definition printed {A S} (r : outcome A * S * list message) : list message := snd r.

(** ** The storage engine *)

(** The database as the connection sees it: the rows of [tasks] in rowid
    order (the order in which [ORDER BY id] delivers them) and the counter
    that [AUTOINCREMENT] keeps in [sqlite_sequence].  What a statement has
    written is in it whether or not the [commit] after it went through. *)
Record connection : Type := mkConnection {
  tasks : list task;
  sqlite_sequence : Z
}.

Definition max_rowid (rows : list task) : Z :=
  fold_right (fun t m => Z.max (id t) m) 0 rows.

(** [AUTOINCREMENT]: one more than the largest rowid the table has ever had. *)
Definition next_rowid (c : connection) : Z :=
  Z.max (sqlite_sequence c) (max_rowid (tasks c)) + 1.

Definition statement {A} (f : fault) (run : Py connection A) : Py connection A :=
  match f with
  | Some e => raise e
  | None => run
  end.

(** A statement of a block that goes on to [conn.commit()]: it is carried
    out unless the block meets an [Error]. *)
Definition statement_to_commit {A} (f : fault) (run : Py connection A)
  : Py connection A :=
  match f with
  | Some e => if on_commit e then run else raise e
  | None => run
  end.

(** [INSERT INTO tasks (user, description, status) VALUES (?, ?, ?)];
    the value is [cursor.lastrowid].  [now] is [CURRENT_TIMESTAMP].  The three
    texts are strings, the empty one included, so [NOT NULL] holds of each;
    the table has no other constraint on them. *)
Definition execute_insert (f : fault) (user_id description status now : string)
  : Py connection Z :=
  statement_to_commit f
    (c <- get ;;
     let task_id := next_rowid c in
     put {| tasks := tasks c ++ [mkTask task_id user_id description status now];
            sqlite_sequence := task_id |} ;;
     ret task_id).

Definition set_status (new_status : string) (task_id : Z) (t : task) : task :=
  if id t =? task_id
  then mkTask (id t) (user t) (description t) new_status (timestamp t)
  else t.

(** [UPDATE tasks SET status = ? WHERE id = ?]; the value is [cursor.rowcount]. *)
Definition execute_update (f : fault) (new_status : string) (task_id : Z)
  : Py connection Z :=
  statement_to_commit f
    (c <- get ;;
     put {| tasks := map (set_status new_status task_id) (tasks c);
            sqlite_sequence := sqlite_sequence c |} ;;
     ret (Z.of_nat (List.length (filter (fun t => id t =? task_id) (tasks c))))).

(** [SELECT ... FROM tasks ORDER BY id] followed by [fetchall()]. *)
Definition execute_select_all (f : fault) : Py connection (list task) :=
  statement f (c <- get ;; ret (tasks c)).

(** [SELECT ... FROM tasks WHERE id = ?] followed by [fetchone()]. *)
Definition execute_select_by_id (f : fault) (task_id : Z)
  : Py connection (option task) :=
  statement f (c <- get ;; ret (find (fun t => id t =? task_id) (tasks c))).

(** [conn.commit()]: it raises when the block meets an [ErrorOnCommit], and
    then leaves in the table what the statement before it has written. *)
Definition commit (f : fault) : Py connection unit :=
  match f with
  | Some e => if on_commit e then raise e else ret tt
  | None => ret tt
  end.

(** ** class DBManager *)

Module DBManager.

Definition _connect (f : fault) : Py connection unit :=
  try_except
    (statement f (ret tt) ;; print MsgConnected)
    (fun e => print (MsgConnectError e) ;; raise e).

(** [CREATE TABLE IF NOT EXISTS]: a database without the table is the
    empty table, so the statement changes nothing. *)
Definition _create_table (f : fault) : Py connection unit :=
  try_except
    (statement_to_commit f (ret tt) ;; commit f ;; print MsgTableChecked)
    (fun e => print (MsgCreateTableError e) ;; raise e).

Definition __init__ (f_connect f_create : fault) : Py connection unit :=
  _connect f_connect ;;
  _create_table f_create.

Definition add_task (f : fault) (user_id description status now : string)
  : Py connection (option Z) :=
  try_except
    (task_id <- execute_insert f user_id description status now ;;
     commit f ;;
     ret (Some task_id))
    (fun e => print (MsgAddError e) ;; ret None).

Definition update_task_status (f : fault) (task_id : Z) (new_status : string)
  : Py connection bool :=
  try_except
    (rowcount <- execute_update f new_status task_id ;;
     commit f ;;
     ret (0 <? rowcount))
    (fun e => print (MsgUpdateError task_id e) ;; ret false).

Definition get_all_tasks (f : fault) : Py connection (list task) :=
  try_except
    (rows <- execute_select_all f ;;
     ret rows)
    (fun e => print (MsgGetAllError e) ;; ret []).

Definition get_task_by_id (f : fault) (task_id : Z)
  : Py connection (option task) :=
  try_except
    (row <- execute_select_by_id f task_id ;;
     match row with
     | Some r => ret (Some r)
     | None => ret None
     end)
    (fun e => print (MsgGetError task_id e) ;; ret None).

Definition close : Py connection unit := print MsgClosed.

End DBManager.

(** ** class TaskManager *)

(** The attributes of a [TaskManager] object: [self.db_manager] (its database)
    and [self.task_queue] (head of the deque first). *)
Record manager : Type := mkManager {
  db_manager : connection;
  task_queue : list Z
}.

(** A call of a [DBManager] method on [self.db_manager]. *)
Definition on_db {A} (m : Py connection A) : Py manager A :=
  fun s =>
    match m (db_manager s) with
    | (r, c, out) => (r, mkManager c (task_queue s), out)
    end.

(** [self.task_queue.append(task_id)] *)
Definition queue_append (task_id : Z) : Py manager unit :=
  s <- get ;;
  put (mkManager (db_manager s) (task_queue s ++ [task_id])).

(** [for x in xs: body x] *)
Fixpoint for_each {S A} (xs : list A) (body : A -> Py S unit) : Py S unit :=
  match xs with
  | [] => ret tt
  | x :: xs' => body x ;; for_each xs' body
  end.

(** [np.random.rand()] is [draw / 2^53] for an integer [0 <= draw < 2^53],
    and the double nearest to 0.8 is [7205759403792794 / 2^53]. *)
Definition rand_lt_0_8 (draw : Z) : bool := draw <? 7205759403792794.

(** The accumulators of the loop of [generate_report]. *)
Record tally : Type := mkTally {
  processed_count : Z;
  unprocessed_count : Z;
  processed_list : list task;
  unprocessed_list : list task
}.

Module TaskManager.

Definition display_queue_status : Py manager unit :=
  s <- get ;;
  print (MsgQueueStatus (task_queue s)).

Definition _load_pending_tasks_to_queue (f : fault) : Py manager unit :=
  all_db_tasks <- on_db (DBManager.get_all_tasks f) ;;
  for_each all_db_tasks
    (fun task =>
       if (status task =? PENDING)%string || (status task =? IN_PROGRESS)%string
       then queue_append (id task)
       else ret tt) ;;
  s <- get ;;
  print (MsgLoaded (List.length (task_queue s))) ;;
  display_queue_status.

(** The object under construction starts from the database that its
    connection finds. *)
Definition __init__ (f_connect f_create f_load : fault) : Py manager unit :=
  on_db (DBManager.__init__ f_connect f_create) ;;
  s <- get ;;
  put (mkManager (db_manager s) []) ;;
  _load_pending_tasks_to_queue f_load ;;
  print MsgBanner.

Definition add_task (f : fault) (user_id task_description now : string)
  : Py manager unit :=
  task_id <- on_db (DBManager.add_task f user_id task_description PENDING now) ;;
  match task_id with
  | Some i =>
      queue_append i ;;
      print (MsgAdded user_id i task_description)
  | None => ret tt
  end ;;
  display_queue_status.

(** [draw] decides [np.random.rand() < 0.8]; [time.sleep(1)] has no effect
    on the state. *)
Definition process_next_task (f_get f_upd1 f_upd2 : fault) (draw : Z)
  : Py manager bool :=
  s <- get ;;
  match task_queue s with
  | [] =>
      print MsgQueueEmpty ;;
      ret false
  | task_id :: rest =>
      put (mkManager (db_manager s) rest) ;;
      task_info <- on_db (DBManager.get_task_by_id f_get task_id) ;;
      match task_info with
      | Some info =>
          on_db (DBManager.update_task_status f_upd1 task_id IN_PROGRESS) ;;
          print (MsgProcessing task_id (user info) (description info)) ;;
          let new_status := if rand_lt_0_8 draw then DONE else FAILED in
          on_db (DBManager.update_task_status f_upd2 task_id new_status) ;;
          print (MsgResult task_id (description info) new_status) ;;
          display_queue_status ;;
          ret true
      | None =>
          print (MsgNotFound task_id) ;;
          ret false
      end
  end.

(** One round of the loop [for task in all_tasks] of [generate_report]. *)
Definition report_step (acc : tally) (t : task) : tally :=
  if (status t =? DONE)%string then
    mkTally (processed_count acc + 1) (unprocessed_count acc)
            (processed_list acc ++ [t]) (unprocessed_list acc)
  else if (status t =? FAILED)%string then
    mkTally (processed_count acc) (unprocessed_count acc + 1)
            (processed_list acc) (unprocessed_list acc ++ [t])
  else if (status t =? PENDING)%string || (status t =? IN_PROGRESS)%string then
    mkTally (processed_count acc) (unprocessed_count acc + 1)
            (processed_list acc) (unprocessed_list acc ++ [t])
  else acc.

Definition report_loop (all_tasks : list task) : tally :=
  fold_left report_step all_tasks (mkTally 0 0 [] []).

Definition generate_report (f : fault) : Py manager unit :=
  all_tasks <- on_db (DBManager.get_all_tasks f) ;;
  let r := report_loop all_tasks in
  print (MsgReport (Z.of_nat (List.length all_tasks))
                   (processed_count r) (unprocessed_count r)
                   (processed_list r) (unprocessed_list r)).

Definition __del__ : Py manager unit := on_db DBManager.close.

End TaskManager.

(** ** Runs *)

(** A call of the manager together with what its surroundings do during it:
    the faults of the storage engine, the clock and the random draw.
    [Initialize] constructs the manager anew; its connection is taken to
    find the table as the calls before it have left it. *)
Inductive call : Type :=
| AddTask (f : fault) (user_id task_description now : string)
| ProcessNext (f_get f_upd1 f_upd2 : fault) (draw : Z)
| Initialize (f_connect f_create f_load : fault).

Definition step (c : call) : Py manager unit :=
  match c with
  | AddTask f user_id task_description now =>
      TaskManager.add_task f user_id task_description now
  | ProcessNext f_get f_upd1 f_upd2 draw =>
      TaskManager.process_next_task f_get f_upd1 f_upd2 draw ;; ret tt
  | Initialize f_connect f_create f_load =>
      TaskManager.__init__ f_connect f_create f_load
  end.

Definition run (calls : list call) : Py manager unit := for_each calls step.

(** The empty system: no rows, nothing queued. *)
Definition empty_system : manager := mkManager (mkConnection [] 0) [].

(** The ids a run took from the head of the deque, read off the lines that
    [process_next_task] prints for a popped id. *)
Definition dequeued_id (m : message) : list Z :=
  match m with
  | MsgProcessing task_id _ _ => [task_id]
  | MsgNotFound task_id => [task_id]
  | _ => []
  end.

(** The ids a run appended to the deque, read off the line [add_task]
    prints after its [append]. *)
Definition enqueued_id (m : message) : list Z :=
  match m with
  | MsgAdded _ task_id _ => [task_id]
  | _ => []
  end.

(** ** Vocabulary of the properties *)

(** A task that is still to be resolved: status [PENDING] or [IN_PROGRESS]. *)
Definition is_open (t : task) : bool :=
  (status t =? PENDING)%string || (status t =? IN_PROGRESS)%string.

Definition terminal (s : string) : Prop := s = DONE \/ s = FAILED.

(** [get(id)] read off the table: the first row with that id. *)
Definition lookup (task_id : Z) (c : connection) : option task :=
  find (fun t => id t =? task_id) (tasks c).

Definition status_of (task_id : Z) (c : connection) : option string :=
  option_map status (lookup task_id c).

(** No two rows share an id ([id] is the primary key). *)
Definition primary_key (c : connection) : Prop := NoDup (map id (tasks c)).

(** Faults seen from the table: what a status write leaves, and the lines
    the [except] blocks print. *)

(** The statement of a block with [commit] is refused: the block meets an
    [Error]. *)
Definition refused (f : fault) : bool :=
  match f with
  | Some e => negb (on_commit e)
  | None => false
  end.

(** The rows after [update_task_status task_id new_status] under fault [f]. *)
Definition written (f : fault) (new_status : string) (task_id : Z)
  (rows : list task) : list task :=
  if refused f then rows else map (set_status new_status task_id) rows.

(** The database after [DBManager.add_task] under fault [f]. *)
Definition inserted (f : fault) (user_id description status now : string)
  (c : connection) : connection :=
  if refused f then c
  else mkConnection
         (tasks c ++ [mkTask (next_rowid c) user_id description status now])
         (next_rowid c).

Definition update_error_line (f : fault) (task_id : Z) : list message :=
  match f with
  | None => []
  | Some e => [MsgUpdateError task_id e]
  end.

Definition get_error_line (f : fault) (task_id : Z) : list message :=
  match f with
  | None => []
  | Some e => [MsgGetError task_id e]
  end.

Definition drawn_status (draw : Z) : string :=
  if rand_lt_0_8 draw then DONE else FAILED.

(** The status of row [j] after [update_task_status i st] under fault [f]. *)
Definition status_after (f : fault) (st : string) (i j : Z) (old : string)
  : string :=
  if refused f then old else if j =? i then st else old.

(** The queue that [_load_pending_tasks_to_queue] builds from an empty one. *)
Definition loaded_queue (f_load : fault) (c : connection) : list Z :=
  match f_load with
  | None => map id (filter is_open (tasks c))
  | Some _ => []
  end.

(** The deque against the table. *)

Definition synced (s : manager) : Prop :=
  primary_key (db_manager s) /\
  task_queue s = map id (filter is_open (tasks (db_manager s))).

(** The calls during which the storage engine answers the read and takes the
    closing status, and no insert fails at its [commit]. *)
Definition store_answers (c : call) : Prop :=
  match c with
  | AddTask f _ _ _ => f = None \/ refused f = true
  | ProcessNext f_get _ f_upd2 _ => f_get = None /\ f_upd2 = None
  | Initialize _ _ f_load => f_load = None
  end.

(** The deque against the table: no id twice, every id a row of the table,
    and no row of a queued id closed. *)
Definition consistent (s : manager) : Prop :=
  primary_key (db_manager s) /\
  NoDup (task_queue s) /\
  (forall i, In i (task_queue s) -> In i (map id (tasks (db_manager s)))) /\
  (forall t, In t (tasks (db_manager s)) -> In (id t) (task_queue s) ->
             is_open t = true).

(** The course of a status. *)

(** The moves of a status along [PENDING], [IN_PROGRESS], then [DONE] or
    [FAILED]: any number of the three arrows, in a row. *)
Inductive moves : string -> string -> Prop :=
| moves_stay s : moves s s
| moves_start : moves PENDING IN_PROGRESS
| moves_done : moves IN_PROGRESS DONE
| moves_fail : moves IN_PROGRESS FAILED
| moves_then s1 s2 s3 : moves s1 s2 -> moves s2 s3 -> moves s1 s3.

(** Every row of [s] is still there in [s'], its status moved forward. *)
Definition advances (s s' : manager) : Prop :=
  forall i st,
    status_of i (db_manager s) = Some st ->
    exists st', status_of i (db_manager s') = Some st' /\ moves st st'.

(** What a run prints about the deque. *)

Definition enqueued (out : list message) : list Z := flat_map enqueued_id out.
Definition dequeued (out : list message) : list Z := flat_map dequeued_id out.

(** The calls of the claims about the deque: [add_task] and
    [process_next_task], under any faults. *)
Definition queue_call (c : call) : Prop :=
  match c with
  | Initialize _ _ _ => False
  | _ => True
  end.

(** The two lists of the report. *)

Definition is_done (t : task) : bool := (status t =? DONE)%string.

Definition is_unresolved (t : task) : bool :=
  (status t =? FAILED)%string || (status t =? PENDING)%string
  || (status t =? IN_PROGRESS)%string.

(** The status is one of the four texts of the data model. *)
Definition known_status (st : string) : Prop :=
  st = PENDING \/ st = IN_PROGRESS \/ st = DONE \/ st = FAILED.

(** The rows that one of the branches of the [if]/[elif] chain of
    [generate_report] takes. *)
Definition has_known_status (t : task) : bool := is_done t || is_unresolved t.

Definition known_rows (rows : list task) : Prop :=
  Forall (fun t => known_status (status t)) rows.


(** Concrete systems and runs. *)

Definition disk_full : sqlite3_Error := Error "database or disk is full".


Definition demo : list call :=
  [ AddTask None "UserA" "a" "t1"; AddTask None "UserB" "b" "t2";
    AddTask None "UserC" "c" "t3";
    ProcessNext None None None 0; ProcessNext None None None 9007199254740991;
    AddTask None "UserD" "d" "t4" ].

Definition one_pending : manager :=
  final (run [AddTask None "UserA" "a" "t1"] empty_system).

Definition refused_read_run : list call :=
  [ AddTask None "UserA" "a" "t1"; ProcessNext (Some disk_full) None None 0 ].

Definition stray_head : manager :=
  mkManager (mkConnection [mkTask 2 "UserB" "b" PENDING "t2"] 2) [1; 2].

Definition three_rows : manager :=
  mkManager
    (mkConnection
       [mkTask 1 "UserA" "a" DONE "t1"; mkTask 2 "UserB" "b" FAILED "t2";
        mkTask 3 "UserC" "c" PENDING "t3"] 3)
    [3].

(** A table with one row, inserted with a status text of its own. *)
Definition one_archived : manager :=
  mkManager
    (final (DBManager.add_task None "UserA" "a" "Archived" "t1" (mkConnection [] 0)))
    [].



(** ** The main program *)

(** The surroundings of one [process_next_task]: the faults of its three
    [DBManager] calls and its random draw. *)
Record round : Type := mkRound {
  round_get : fault;
  round_upd1 : fault;
  round_upd2 : fault;
  round_draw : Z
}.

Definition process_round (r : round) : Py manager bool :=
  TaskManager.process_next_task
    (round_get r) (round_upd1 r) (round_upd2 r) (round_draw r).

(** [for _ in range(n): if not manager.process_next_task(): break], one
    element of [rounds] per turn of [range(n)]; [time.sleep(0.5)] has no
    effect on the state. *)
Fixpoint process_up_to (rounds : list round) : Py manager unit :=
  match rounds with
  | [] => ret tt
  | r :: rounds' =>
      ok <- process_round r ;;
      if ok then process_up_to rounds' else ret tt
  end.

(** [while manager.task_queue: if not manager.process_next_task(): break].
    Turn [k] of the loop has the surroundings [rounds k].  Every turn takes
    an id from the deque, so the loop makes no more turns than the deque has
    ids: [fuel] counts the turns that are left. *)
Fixpoint drain_loop (fuel : nat) (rounds : nat -> round) (k : nat)
  : Py manager unit :=
  match fuel with
  | O => ret tt
  | S fuel' =>
      s <- get ;;
      match task_queue s with
      | [] => ret tt
      | _ :: _ =>
          ok <- process_round (rounds k) ;;
          if ok then drain_loop fuel' rounds (S k) else ret tt
      end
  end.

Definition drain (rounds : nat -> round) : Py manager unit :=
  s <- get ;;
  drain_loop (List.length (task_queue s)) rounds 0.

(** The lines of the main program: those of the two classes, the two lines
    it prints itself and those of [display_all_tasks_status]. *)
Inductive main_line : Type :=
| Line (m : message)
| LineProcessingStarts
| LineProcessingDone
| LineStatusTitle
| LineNoTasks
| LineStatusTable (rows : list task).

Definition Script (A : Type) : Type :=
  manager -> outcome A * manager * list main_line.

Definition script_bind {A B} (m : Script A) (k : A -> Script B) : Script B :=
  fun s =>
    match m s with
    | (Return a, s1, out1) =>
        match k a s1 with
        | (r, s2, out2) => (r, s2, out1 ++ out2)
        end
    | (Raise e, s1, out1) => (Raise e, s1, out1)
    end.

Definition say (l : main_line) : Script unit := fun s => (Return tt, s, [l]).

(** A call of a method of the two classes from the main program. *)
Definition call_method {A} (m : Py manager A) : Script A :=
  fun s =>
    match m s with
    | (r, s1, out) => (r, s1, map Line out)
    end.

Notation "x <~ m ;;; k" := (script_bind m (fun x => k))
  (at level 61, m at next level, right associativity).
Notation "m ;;; k" := (script_bind m (fun _ => k))
  (at level 61, right associativity).

(** [TaskManager.display_all_tasks_status]: the table it prints is kept as
    the list of the rows it shows. *)
Definition display_all_tasks_status (f : fault) : Script unit :=
  say LineStatusTitle ;;;
  all_tasks <~ call_method (on_db (DBManager.get_all_tasks f)) ;;;
  match all_tasks with
  | [] => say LineNoTasks
  | _ :: _ => say (LineStatusTable all_tasks)
  end.

(** The surroundings of a run of the main program: the faults of the
    construction, the fault and the clock of each of the seven [add_task],
    the rounds of the two loops, and the faults of the two reads at the
    end. *)
Record main_env : Type := mkMainEnv {
  env_connect : fault;
  env_create : fault;
  env_load : fault;
  env_add : nat -> fault * string;
  env_first : nat -> round;
  env_drain : nat -> round;
  env_display : fault;
  env_report : fault
}.

Definition main_add (e : main_env) (k : nat) (user_id task_description : string)
  : Script unit :=
  call_method
    (TaskManager.add_task (fst (env_add e k)) user_id task_description
       (snd (env_add e k))).

(** The block under [if __name__ == "__main__"], started on the database
    that the file [tasks.db] holds. *)
Definition main (e : main_env) : Script unit :=
  call_method (TaskManager.__init__ (env_connect e) (env_create e) (env_load e)) ;;;
  main_add e 0 "UserA" "Надіслати звіт до 17:00" ;;;
  main_add e 1 "UserB" "Створити новий проект" ;;;
  main_add e 2 "UserC" "Відповісти на email" ;;;
  main_add e 3 "UserA" "Забронювати переговорну" ;;;
  main_add e 4 "UserB" "Підготувати презентацію" ;;;
  say LineProcessingStarts ;;;
  call_method
    (process_up_to [env_first e 0%nat; env_first e 1%nat;
                    env_first e 2%nat; env_first e 3%nat]) ;;;
  main_add e 5 "UserD" "Перевірити базу даних" ;;;
  main_add e 6 "UserC" "Оновити програмне забезпечення" ;;;
  call_method (drain (env_drain e)) ;;;
  say LineProcessingDone ;;;
  display_all_tasks_status (env_display e) ;;;
  call_method (TaskManager.generate_report (env_report e)).

(** Further vocabulary. *)

(** The ids of the table ascend, as [ORDER BY id] delivers them. *)
Definition ascending (c : connection) : Prop :=
  StronglySorted Z.lt (map id (tasks c)).

(** Surroundings without a fault. *)
Definition calm (r : round) : Prop :=
  round_get r = None /\ round_upd1 r = None /\ round_upd2 r = None.

Definition calm_main (e : main_env) : Prop :=
  env_connect e = None /\ env_create e = None /\ env_load e = None
  /\ (forall k, fst (env_add e k) = None)
  /\ (forall k, calm (env_first e k))
  /\ (forall k, calm (env_drain e k))
  /\ env_display e = None /\ env_report e = None.

(** [l2] is what is left of [l1] after some ids were taken from its head. *)
Definition rest_of (l1 l2 : list Z) : Prop := exists taken, l1 = taken ++ l2.

Definition steady : round := mkRound None None None 0.


Definition steady_main : main_env :=
  mkMainEnv None None None (fun _ => (None, "2024-01-01 00:00:00"))
            (fun _ => steady) (fun _ => steady) None None.



Definition get_all_error_line (f : fault) : list message :=
  match f with
  | None => []
  | Some e => [MsgGetAllError e]
  end.

Definition round_call (r : round) : call :=
  ProcessNext (round_get r) (round_upd1 r) (round_upd2 r) (round_draw r).

Definition script_result {A} (r : outcome A * manager * list main_line)
  : outcome A := fst (fst r).
Definition script_final {A} (r : outcome A * manager * list main_line)
  : manager := snd (fst r).
Definition script_printed {A} (r : outcome A * manager * list main_line)
  : list main_line := snd r.

(** From a state with [P] the script returns normally, in a state and with
    lines that satisfy [Q]. *)
Definition returns_with {A} (P : manager -> Prop) (m : Script A)
  (Q : manager -> list main_line -> Prop) : Prop :=
  forall s, P s -> exists a s' out, m s = (Return a, s', out) /\ Q s' out.

(** What the main program has reached on the table [rows0] after [n] of its
    [add_task]: the deque in step with the table, [n] rows more, the known
    statuses still known. *)
Definition main_stage (rows0 : list task) (n : nat) (s : manager) : Prop :=
  synced s
  /\ List.length (tasks (db_manager s)) = (List.length rows0 + n)%nat
  /\ (known_rows rows0 -> known_rows (tasks (db_manager s))).

Definition main_report_lines (s : manager) : list main_line :=
  [LineStatusTitle; LineStatusTable (tasks (db_manager s));
   Line (MsgReport (Z.of_nat (List.length (tasks (db_manager s))))
           (Z.of_nat (List.length (filter is_done (tasks (db_manager s)))))
           (Z.of_nat (List.length (filter is_unresolved (tasks (db_manager s)))))
           (filter is_done (tasks (db_manager s)))
           (filter is_unresolved (tasks (db_manager s))))].

(** ** Equations of the operations *)

Ltac run_py :=
  cbv beta iota zeta delta
    [statement_to_commit on_commit TaskManager.add_task TaskManager.process_next_task TaskManager.__init__
     TaskManager._load_pending_tasks_to_queue TaskManager.display_queue_status
     TaskManager.generate_report
     DBManager.add_task DBManager.update_task_status DBManager.get_all_tasks
     DBManager.get_task_by_id DBManager.__init__ DBManager._connect
     DBManager._create_table
     execute_insert execute_update execute_select_all execute_select_by_id
     statement commit on_db queue_append
     bind ret raise try_except print get put
     result final printed fst snd
     db_manager task_queue tasks sqlite_sequence].

Example add_then_get :
  result ((r <- DBManager.add_task None "UserA" "x" PENDING "t0" ;;
           match r with
           | Some i => DBManager.get_task_by_id None i
           | None => ret None
           end) (mkConnection [] 0))
  = Return (Some (mkTask 1 "UserA" "x" PENDING "t0")).
Proof. reflexivity. Qed.

Example demo_queue : task_queue (final (run demo empty_system)) = [3; 4].
Proof. reflexivity. Qed.

Example demo_statuses :
  map status (tasks (db_manager (final (run demo empty_system))))
  = [DONE; FAILED; PENDING; PENDING].
Proof. reflexivity. Qed.

Lemma add_task_stored f u d now (s : manager) :
  f = None ->
  TaskManager.add_task f u d now s =
  (Return tt,
   mkManager
     (mkConnection
        (tasks (db_manager s) ++ [mkTask (next_rowid (db_manager s)) u d PENDING now])
        (next_rowid (db_manager s)))
     (task_queue s ++ [next_rowid (db_manager s)]),
   [MsgAdded u (next_rowid (db_manager s)) d;
    MsgQueueStatus (task_queue s ++ [next_rowid (db_manager s)])]).
Proof.
  intros ->. destruct s as [[rows sq] q]. run_py. reflexivity.
Qed.

Lemma add_task_faulted e u d now (s : manager) :
  TaskManager.add_task (Some e) u d now s =
  (Return tt,
   mkManager (inserted (Some e) u d PENDING now (db_manager s)) (task_queue s),
   [MsgAddError e; MsgQueueStatus (task_queue s)]).
Proof.
  destruct s as [[rows sq] q]. destruct e; reflexivity.
Qed.

Lemma process_empty f_get f_upd1 f_upd2 draw (s : manager) :
  task_queue s = [] ->
  TaskManager.process_next_task f_get f_upd1 f_upd2 draw s =
  (Return false, s, [MsgQueueEmpty]).
Proof.
  destruct s as [[rows sq] q]. simpl. intros ->. run_py. reflexivity.
Qed.

Lemma process_get_faulted e f_upd1 f_upd2 draw (s : manager) i rest :
  task_queue s = i :: rest ->
  TaskManager.process_next_task (Some e) f_upd1 f_upd2 draw s =
  (Return false, mkManager (db_manager s) rest, [MsgGetError i e; MsgNotFound i]).
Proof.
  destruct s as [[rows sq] q]. simpl. intros ->. run_py. reflexivity.
Qed.

Lemma process_missing f_upd1 f_upd2 draw (s : manager) i rest :
  task_queue s = i :: rest ->
  lookup i (db_manager s) = None ->
  TaskManager.process_next_task None f_upd1 f_upd2 draw s =
  (Return false, mkManager (db_manager s) rest, [MsgNotFound i]).
Proof.
  destruct s as [[rows sq] q]. unfold lookup. simpl. intros -> H.
  run_py. rewrite H. reflexivity.
Qed.

Lemma process_found f_upd1 f_upd2 draw (s : manager) i rest info :
  task_queue s = i :: rest ->
  lookup i (db_manager s) = Some info ->
  TaskManager.process_next_task None f_upd1 f_upd2 draw s =
  (Return true,
   mkManager
     (mkConnection
        (written f_upd2 (drawn_status draw) i
           (written f_upd1 IN_PROGRESS i (tasks (db_manager s))))
        (sqlite_sequence (db_manager s)))
     rest,
   update_error_line f_upd1 i
   ++ [MsgProcessing i (user info) (description info)]
   ++ update_error_line f_upd2 i
   ++ [MsgResult i (description info) (drawn_status draw); MsgQueueStatus rest]).
Proof.
  destruct s as [[rows sq] q]. unfold lookup. simpl. intros -> H.
  run_py. rewrite H.
  destruct f_upd1 as [[t1|t1]|], f_upd2 as [[t2|t2]|]; reflexivity.
Qed.

Lemma load_loop (body : task -> Py manager unit) :
  (forall t s,
      body t s =
      (Return tt,
       mkManager (db_manager s)
                 (task_queue s ++ (if is_open t then [id t] else [])),
       [])) ->
  forall rows s,
    for_each rows body s =
    (Return tt,
     mkManager (db_manager s) (task_queue s ++ map id (filter is_open rows)),
     []).
Proof.
  intros Hbody rows. induction rows as [|t rows IH]; intros [c q].
  - simpl. unfold ret. now rewrite app_nil_r.
  - simpl. unfold bind. rewrite Hbody, IH. simpl.
    destruct (is_open t); simpl; now rewrite <- app_assoc.
Qed.

Lemma load_body_eq t s :
  (if (status t =? PENDING)%string || (status t =? IN_PROGRESS)%string
   then queue_append (id t) else ret tt) s =
  (Return tt,
   mkManager (db_manager s) (task_queue s ++ (if is_open t then [id t] else [])),
   []).
Proof.
  unfold is_open. destruct s as [c q].
  destruct ((status t =? PENDING)%string || (status t =? IN_PROGRESS)%string).
  - reflexivity.
  - simpl. unfold ret. now rewrite app_nil_r.
Qed.

Lemma init_final f_connect f_create f_load (s : manager) :
  final (TaskManager.__init__ f_connect f_create f_load s) =
  match f_connect, f_create with
  | None, None => mkManager (db_manager s) (loaded_queue f_load (db_manager s))
  | _, _ => s
  end.
Proof.
  destruct s as [[rows sq] q].
  destruct f_connect as [e|]; [reflexivity|].
  destruct f_create as [e|]; [destruct e; reflexivity|].
  destruct f_load as [e|]; [reflexivity|].
  unfold TaskManager.__init__, TaskManager._load_pending_tasks_to_queue.
  unfold bind at 1. simpl. unfold bind at 1. simpl. unfold bind at 1. simpl.
  unfold bind at 1. simpl. unfold bind at 1. simpl.
  unfold bind at 1.
  match goal with
  | |- context [for_each ?r ?b ?s0] => rewrite (load_loop b load_body_eq r s0)
  end.
  reflexivity.
Qed.

(** ** Facts about rows and status texts *)

Lemma terminal_not_open_text st :
  terminal st -> ((st =? PENDING)%string || (st =? IN_PROGRESS)%string) = false.
Proof. intros [-> | ->]; reflexivity. Qed.

Lemma drawn_status_terminal draw : terminal (drawn_status draw).
Proof. unfold drawn_status, terminal. destruct (rand_lt_0_8 draw); auto. Qed.

Lemma open_text_cases st :
  ((st =? PENDING)%string || (st =? IN_PROGRESS)%string) = true ->
  st = PENDING \/ st = IN_PROGRESS.
Proof.
  intros H. apply orb_true_iff in H.
  destruct H as [H | H]; apply String.eqb_eq in H; auto.
Qed.

Section Rows.

Variable task_id : Z.
Variable new_status : string.

Lemma set_status_id t : id (set_status new_status task_id t) = id t.
Proof. unfold set_status. destruct (id t =? task_id); reflexivity. Qed.

Lemma set_status_other t : id t <> task_id -> set_status new_status task_id t = t.
Proof.
  intros H. unfold set_status.
  destruct (Z.eqb_spec (id t) task_id); [contradiction | reflexivity].
Qed.

Lemma set_status_same t :
  id t = task_id -> status (set_status new_status task_id t) = new_status.
Proof.
  intros H. unfold set_status. rewrite H, Z.eqb_refl. reflexivity.
Qed.

Lemma set_status_twice st t :
  set_status new_status task_id (set_status st task_id t)
  = set_status new_status task_id t.
Proof.
  unfold set_status. destruct (Z.eqb_spec (id t) task_id) as [E | E]; simpl.
  - rewrite E, Z.eqb_refl. reflexivity.
  - destruct (Z.eqb_spec (id t) task_id); [contradiction | reflexivity].
Qed.

Lemma map_set_status_ids rows :
  map id (map (set_status new_status task_id) rows) = map id rows.
Proof.
  rewrite map_map. apply map_ext. intros t. apply set_status_id.
Qed.

Lemma find_set_status j rows :
  find (fun t => id t =? j) (map (set_status new_status task_id) rows)
  = option_map (set_status new_status task_id) (find (fun t => id t =? j) rows).
Proof.
  induction rows as [|t rows IH]; simpl; [reflexivity|].
  rewrite set_status_id. destruct (id t =? j); [reflexivity | exact IH].
Qed.

(** Closing a task removes exactly its id from the ids of the open rows. *)
Lemma open_ids_after_close rows :
  terminal new_status ->
  map id (filter is_open (map (set_status new_status task_id) rows))
  = filter (fun j => negb (j =? task_id)) (map id (filter is_open rows)).
Proof.
  intros T. induction rows as [|t rows IH]; simpl; [reflexivity|].
  destruct (Z.eqb_spec (id t) task_id) as [E | E].
  - assert (O : is_open (set_status new_status task_id t) = false).
    { unfold is_open. rewrite (set_status_same _ E).
      now apply terminal_not_open_text. }
    rewrite O. destruct (is_open t); simpl; [|exact IH].
    rewrite E, Z.eqb_refl. simpl. exact IH.
  - rewrite (set_status_other _ E). destruct (is_open t); simpl; [|exact IH].
    destruct (Z.eqb_spec (id t) task_id); [contradiction|]. simpl.
    now rewrite IH.
Qed.

End Rows.

Lemma written_ids f st i rows : map id (written f st i rows) = map id rows.
Proof.
  unfold written. destruct (refused f); [reflexivity | apply map_set_status_ids].
Qed.

Lemma filter_out_absent (i : Z) (l : list Z) :
  ~ In i l -> filter (fun j => negb (j =? i)) l = l.
Proof.
  induction l as [|a l IH]; simpl; intros H; [reflexivity|].
  destruct (Z.eqb_spec a i) as [E | E]; simpl.
  - exfalso. apply H. now left.
  - f_equal. apply IH. intros K. apply H. now right.
Qed.

Lemma max_rowid_bound rows t : In t rows -> id t <= max_rowid rows.
Proof.
  induction rows as [|a rows IH]; simpl; intros H; [contradiction|].
  destruct H as [-> | H]; [lia|]. specialize (IH H). lia.
Qed.

Lemma next_rowid_fresh c : ~ In (next_rowid c) (map id (tasks c)).
Proof.
  intros H. apply in_map_iff in H. destruct H as [t [E H]].
  apply max_rowid_bound in H. unfold next_rowid in E. lia.
Qed.

Lemma find_by_id_some rows i t :
  find (fun t => id t =? i) rows = Some t -> In t rows /\ id t = i.
Proof.
  intros H. apply find_some in H. destruct H as [H E].
  split; [exact H | now apply Z.eqb_eq].
Qed.

Lemma find_by_id_present rows i :
  In i (map id rows) -> exists t, find (fun t => id t =? i) rows = Some t.
Proof.
  induction rows as [|a rows IH]; simpl; intros H; [contradiction|].
  destruct (Z.eqb_spec (id a) i) as [E | E]; [eauto|].
  destruct H as [H | H]; [contradiction | auto].
Qed.

Lemma find_by_id_app rows extra i t :
  find (fun t => id t =? i) rows = Some t ->
  find (fun t => id t =? i) (rows ++ extra) = Some t.
Proof.
  induction rows as [|a rows IH]; simpl; [discriminate|].
  destruct (id a =? i); auto.
Qed.

Lemma NoDup_open_ids rows :
  NoDup (map id rows) -> NoDup (map id (filter is_open rows)).
Proof.
  induction rows as [|a rows IH]; simpl; intros H; [constructor|].
  inversion H as [|x l Hx Hl]; subst.
  destruct (is_open a); simpl; [|auto].
  constructor; [|auto].
  intros K. apply Hx. apply in_map_iff in K. destruct K as [t [E K]].
  apply filter_In in K. apply in_map_iff. exists t. tauto.
Qed.

Lemma same_id_same_row rows t1 t2 :
  NoDup (map id rows) -> In t1 rows -> In t2 rows -> id t1 = id t2 -> t1 = t2.
Proof.
  induction rows as [|a rows IH]; simpl; intros H H1 H2 E; [contradiction|].
  inversion H as [|x l Hx Hl]; subst.
  destruct H1 as [-> | H1], H2 as [-> | H2]; auto.
  - exfalso. apply Hx. rewrite E. now apply in_map.
  - exfalso. apply Hx. rewrite <- E. now apply in_map.
Qed.

(** ** Properties kept along a run *)

Lemma run_cons c cs s :
  run (c :: cs) s =
  match step c s with
  | (Return _, s1, out1) =>
      match run cs s1 with
      | (r, s2, out2) => (r, s2, out1 ++ out2)
      end
  | (Raise e, s1, out1) => (Raise e, s1, out1)
  end.
Proof. reflexivity. Qed.

Section RunInduction.

Variable allowed : call -> Prop.
Variable I : manager -> Prop.
Variable R : manager -> manager -> Prop.

Hypothesis R_refl : forall s, R s s.
Hypothesis R_trans : forall s1 s2 s3, R s1 s2 -> R s2 s3 -> R s1 s3.
Hypothesis step_keeps :
  forall c s, allowed c -> I s ->
              I (final (step c s)) /\ R s (final (step c s)).

Lemma run_keeps calls :
  forall s, Forall allowed calls -> I s ->
            I (final (run calls s)) /\ R s (final (run calls s)).
Proof.
  induction calls as [|c cs IH]; intros s Hall Hs.
  - split; [exact Hs | apply R_refl].
  - inversion Hall as [|x l Hc Hcs]; subst.
    destruct (step_keeps c s Hc Hs) as [I1 R1].
    rewrite run_cons. unfold final in *.
    destruct (step c s) as [[[u | e] s1] out1]; simpl in *.
    + destruct (IH s1 Hcs I1) as [I2 R2].
      destruct (run cs s1) as [[r s2] out2]; simpl in *.
      split; [exact I2 | eapply R_trans; eauto].
    + split; assumption.
Qed.

End RunInduction.

(** The state a call leaves behind, case by case. *)
Lemma step_final c s :
  final (step c s) =
  match c with
  | AddTask None u d now =>
      mkManager
        (mkConnection
           (tasks (db_manager s) ++ [mkTask (next_rowid (db_manager s)) u d PENDING now])
           (next_rowid (db_manager s)))
        (task_queue s ++ [next_rowid (db_manager s)])
  | AddTask (Some e) u d now =>
      mkManager (inserted (Some e) u d PENDING now (db_manager s)) (task_queue s)
  | ProcessNext f_get f_upd1 f_upd2 draw =>
      match task_queue s with
      | [] => s
      | i :: rest =>
          match f_get, lookup i (db_manager s) with
          | None, Some _ =>
              mkManager
                (mkConnection
                   (written f_upd2 (drawn_status draw) i
                      (written f_upd1 IN_PROGRESS i (tasks (db_manager s))))
                   (sqlite_sequence (db_manager s)))
                rest
          | _, _ => mkManager (db_manager s) rest
          end
      end
  | Initialize None None f_load =>
      mkManager (db_manager s) (loaded_queue f_load (db_manager s))
  | Initialize _ _ _ => s
  end.
Proof.
  destruct c as [f u d now | f_get f_upd1 f_upd2 draw | f_connect f_create f_load].
  - simpl step. destruct f as [e|].
    + now rewrite add_task_faulted.
    + now rewrite add_task_stored.
  - simpl step. unfold final, bind.
    destruct (task_queue s) as [|i rest] eqn:Q.
    + now rewrite (process_empty _ _ _ _ _ Q).
    + destruct f_get as [e|].
      * now rewrite (process_get_faulted _ _ _ _ _ _ _ Q).
      * destruct (lookup i (db_manager s)) as [info|] eqn:L.
        -- now rewrite (process_found _ _ _ _ _ _ _ Q L).
        -- now rewrite (process_missing _ _ _ _ _ _ Q L).
  - simpl step. rewrite init_final.
    destruct f_connect, f_create; reflexivity.
Qed.

Lemma NoDup_snoc (l : list Z) x : NoDup l -> ~ In x l -> NoDup (l ++ [x]).
Proof.
  induction l as [|a l IH]; simpl; intros H N.
  - constructor; [tauto | constructor].
  - inversion H as [|y l' Ha Hl]; subst. constructor.
    + rewrite in_app_iff. simpl. intros [K | [K | []]]; [tauto|].
      apply N. now left.
    + apply IH; [exact Hl | tauto].
Qed.

Lemma close_after_start f_upd1 st i rows :
  written None st i (written f_upd1 IN_PROGRESS i rows)
  = map (set_status st i) rows.
Proof.
  unfold written. simpl. destruct (refused f_upd1); [reflexivity|].
  rewrite map_map. apply map_ext. intros t. apply set_status_twice.
Qed.

(** *** The deque holds exactly the ids of the open rows *)

Lemma synced_step c s :
  store_answers c -> synced s -> synced (final (step c s)).
Proof.
  intros A [K Q]. rewrite step_final. unfold synced, primary_key in *.
  destruct c as [f u d now | f_get f_upd1 f_upd2 draw | f_connect f_create f_load].
  - destruct f as [e|].
    { destruct A as [A | A]; [discriminate A|].
      unfold inserted. rewrite A. now split. }
    simpl. split.
    + rewrite map_app. simpl. apply NoDup_snoc; [exact K|].
      apply next_rowid_fresh.
    + rewrite filter_app, map_app, Q. reflexivity.
  - simpl in A. destruct A as [-> ->].
    destruct (task_queue s) as [|i rest] eqn:E;
      [split; [exact K | now rewrite E]|].
    assert (P : In i (map id (tasks (db_manager s)))).
    { assert (P : In i (map id (filter is_open (tasks (db_manager s))))).
      { rewrite <- Q. now left. }
      apply in_map_iff in P. destruct P as [t [Et P]].
      apply filter_In in P. apply in_map_iff. exists t. tauto. }
    destruct (find_by_id_present _ _ P) as [info L].
    unfold lookup. rewrite L. cbn [tasks task_queue db_manager].
    rewrite close_after_start. split.
    + now rewrite map_set_status_ids.
    + rewrite open_ids_after_close by apply drawn_status_terminal.
      rewrite <- Q. simpl. rewrite Z.eqb_refl. simpl.
      symmetry. apply filter_out_absent.
      pose proof (NoDup_open_ids _ K) as N. rewrite <- Q in N.
      now inversion N.
  - simpl in A. subst f_load.
    destruct f_connect, f_create; now split.
Qed.

Lemma synced_empty : synced empty_system.
Proof. split; [constructor | reflexivity]. Qed.

Lemma synced_run calls s :
  Forall store_answers calls -> synced s -> synced (final (run calls s)).
Proof.
  intros A H.
  apply (run_keeps store_answers synced (fun _ _ => True)); auto.
  intros c s0 Hc Hs. split; [now apply synced_step | exact Logic.I].
Qed.

(** *** Statuses only move forward *)


Lemma moves_open_to_terminal s1 s2 :
  s1 = PENDING \/ s1 = IN_PROGRESS -> terminal s2 -> moves s1 s2.
Proof.
  intros [-> | ->] [-> | ->].
  - exact (moves_then _ _ _ moves_start moves_done).
  - exact (moves_then _ _ _ moves_start moves_fail).
  - exact moves_done.
  - exact moves_fail.
Qed.

Lemma moves_open_to_in_progress s1 :
  s1 = PENDING \/ s1 = IN_PROGRESS -> moves s1 IN_PROGRESS.
Proof. intros [-> | ->]; [exact moves_start | apply moves_stay]. Qed.

Lemma advances_refl s : advances s s.
Proof. intros i st H. exists st. split; [exact H | apply moves_stay]. Qed.

Lemma advances_trans s1 s2 s3 : advances s1 s2 -> advances s2 s3 -> advances s1 s3.
Proof.
  intros H12 H23 i st H.
  destruct (H12 i st H) as [st2 [H2 M2]].
  destruct (H23 i st2 H2) as [st3 [H3 M3]].
  exists st3. split; [exact H3 | exact (moves_then _ _ _ M2 M3)].
Qed.

Lemma written_kept f st i rows t :
  In t (written f st i rows) -> id t <> i -> In t rows.
Proof.
  unfold written. destruct (refused f); intros H N; [exact H|].
  apply in_map_iff in H. destruct H as [t0 [E H]]. subst t.
  rewrite set_status_id in N. now rewrite (set_status_other _ _ _ N).
Qed.

Lemma status_written f st i j rows :
  option_map status (find (fun t => id t =? j) (written f st i rows))
  = option_map (status_after f st i j)
      (option_map status (find (fun t => id t =? j) rows)).
Proof.
  unfold written, status_after. destruct (refused f).
  - now destruct (find (fun t => id t =? j) rows).
  - rewrite find_set_status.
    destruct (find (fun t => id t =? j) rows) as [t|] eqn:F; simpl; [|reflexivity].
    apply find_by_id_some in F. destruct F as [_ <-].
    unfold set_status. now destruct (id t =? i).
Qed.

Lemma consistent_add u d now s :
  consistent s ->
  let s' := final (step (AddTask None u d now) s) in
  consistent s' /\ advances s s'.
Proof.
  intros (K & N & Sub & Op). cbv zeta. rewrite step_final.
  unfold consistent, primary_key, advances, status_of, lookup in *.
  cbn [tasks task_queue db_manager].
  pose proof (next_rowid_fresh (db_manager s)) as Fr.
  repeat split.
  - rewrite map_app. simpl. now apply NoDup_snoc.
  - apply NoDup_snoc; auto.
  - intros i H. rewrite map_app, in_app_iff. apply in_app_iff in H.
    destruct H as [H | H]; [left; auto | right; exact H].
  - intros t H Q. apply in_app_iff in H. destruct H as [H | [<- | []]].
    + apply Op; [exact H|]. apply in_app_iff in Q.
      destruct Q as [Q | [Q | []]]; [exact Q|].
      exfalso. apply Fr. rewrite Q. now apply in_map.
    + reflexivity.
  - intros i st H.
    destruct (find (fun t => id t =? i) (tasks (db_manager s))) as [t|] eqn:F;
      [|discriminate].
    exists st. split; [|apply moves_stay].
    now rewrite (find_by_id_app _ _ _ _ F).
Qed.

Lemma consistent_add_unqueued e u d now s :
  consistent s ->
  let s' := final (step (AddTask (Some e) u d now) s) in
  consistent s' /\ advances s s'.
Proof.
  intros C. cbv zeta. rewrite step_final. unfold inserted.
  destruct (refused (Some e)).
  { destruct s as [c q]. split; [exact C | apply advances_refl]. }
  destruct C as (K & N & Sub & Op).
  unfold consistent, primary_key, advances, status_of, lookup in *.
  cbn [tasks task_queue db_manager].
  pose proof (next_rowid_fresh (db_manager s)) as Fr.
  repeat split.
  - rewrite map_app. simpl. now apply NoDup_snoc.
  - exact N.
  - intros i H. rewrite map_app, in_app_iff. left. auto.
  - intros t H Q. apply in_app_iff in H. destruct H as [H | [<- | []]].
    + now apply Op.
    + reflexivity.
  - intros i st H.
    destruct (find (fun t => id t =? i) (tasks (db_manager s))) as [t|] eqn:F;
      [|discriminate].
    exists st. split; [|apply moves_stay].
    now rewrite (find_by_id_app _ _ _ _ F).
Qed.

Lemma consistent_pop s i rest :
  task_queue s = i :: rest ->
  consistent s ->
  consistent (mkManager (db_manager s) rest).
Proof.
  intros Q (K & N & Sub & Op). rewrite Q in *.
  unfold consistent. cbn [tasks task_queue db_manager].
  inversion N as [|x l Hx Hl]; subst.
  repeat split; auto.
  - intros j H. apply Sub. now right.
  - intros t H H'. apply Op; [exact H | now right].
Qed.

Lemma consistent_resolve f_upd1 f_upd2 draw s i rest info :
  task_queue s = i :: rest ->
  lookup i (db_manager s) = Some info ->
  consistent s ->
  let s' :=
    mkManager
      (mkConnection
         (written f_upd2 (drawn_status draw) i
            (written f_upd1 IN_PROGRESS i (tasks (db_manager s))))
         (sqlite_sequence (db_manager s)))
      rest in
  consistent s' /\ advances s s'.
Proof.
  intros Q L (K & N & Sub & Op). cbv zeta. rewrite Q in *.
  unfold consistent, primary_key, advances, status_of, lookup in *.
  cbn [tasks task_queue db_manager].
  inversion N as [|x l Hx Hl]; subst.
  repeat split.
  - now rewrite !written_ids.
  - exact Hl.
  - intros j H. rewrite !written_ids. apply Sub. now right.
  - intros t H H'.
    assert (D : id t <> i) by (intros E; apply Hx; now rewrite <- E).
    apply Op; [|now right].
    eapply written_kept; [|exact D]. eapply written_kept; [exact H | exact D].
  - intros j st H. rewrite !status_written, H. simpl.
    eexists. split; [reflexivity|].
    destruct (Z.eqb_spec j i) as [E | E].
    + subst j. rewrite L in H. simpl in H. injection H as H.
      apply find_by_id_some in L. destruct L as [Li Ei].
      assert (O : st = PENDING \/ st = IN_PROGRESS).
      { rewrite <- H. apply open_text_cases. apply (Op info Li).
        rewrite Ei. now left. }
      pose proof (drawn_status_terminal draw) as T.
      unfold status_after. rewrite Z.eqb_refl.
      destruct (refused f_upd1), (refused f_upd2).
      * apply moves_stay.
      * now apply moves_open_to_terminal.
      * now apply moves_open_to_in_progress.
      * now apply moves_open_to_terminal.
    + unfold status_after.
      destruct (Z.eqb_spec j i); [contradiction|].
      destruct (refused f_upd1), (refused f_upd2); apply moves_stay.
Qed.

Lemma consistent_load f_load s :
  primary_key (db_manager s) ->
  consistent (mkManager (db_manager s) (loaded_queue f_load (db_manager s))).
Proof.
  intros K. unfold consistent, primary_key in *. cbn [tasks task_queue db_manager].
  destruct f_load as [e|]; simpl.
  - repeat split; auto; try constructor; intros; contradiction.
  - repeat split; auto.
    + now apply NoDup_open_ids.
    + intros i H. apply in_map_iff in H. destruct H as [t [E H]].
      apply filter_In in H. apply in_map_iff. exists t. tauto.
    + intros t H H'. apply in_map_iff in H'. destruct H' as [t2 [E H2]].
      apply filter_In in H2. destruct H2 as [H2 O2].
      now rewrite <- (same_id_same_row _ _ _ K H2 H E).
Qed.

Lemma consistent_step c s :
  consistent s -> consistent (final (step c s)) /\ advances s (final (step c s)).
Proof.
  intros C.
  destruct c as [f u d now | f_get f_upd1 f_upd2 draw | f_connect f_create f_load].
  - destruct f as [e|].
    + now apply consistent_add_unqueued.
    + now apply consistent_add.
  - rewrite step_final.
    destruct (task_queue s) as [|i rest] eqn:Q;
      [split; [exact C | apply advances_refl]|].
    destruct f_get as [e|].
    + split; [now apply (consistent_pop s i rest) | intros j st H; exists st;
              split; [exact H | apply moves_stay]].
    + destruct (lookup i (db_manager s)) as [info|] eqn:L.
      * now apply (consistent_resolve f_upd1 f_upd2 draw s i rest info).
      * split; [now apply (consistent_pop s i rest) | intros j st H; exists st;
                split; [exact H | apply moves_stay]].
  - rewrite step_final.
    destruct f_connect, f_create; try (split; [exact C | apply advances_refl]).
    split.
    + apply consistent_load. apply C.
    + intros j st H. exists st. split; [exact H | apply moves_stay].
Qed.

Lemma consistent_run calls s :
  consistent s ->
  consistent (final (run calls s)) /\ advances s (final (run calls s)).
Proof.
  intros C.
  apply (run_keeps (fun _ => True) consistent advances advances_refl advances_trans).
  - intros c s0 _ C0. now apply consistent_step.
  - apply Forall_forall. intros; exact Logic.I.
  - exact C.
Qed.

Lemma consistent_empty : consistent empty_system.
Proof.
  unfold consistent, primary_key. simpl.
  repeat split; try constructor; intros; contradiction.
Qed.

(** *** What a run prints about the deque *)

Lemma update_error_line_silent f i :
  enqueued (update_error_line f i) = [] /\ dequeued (update_error_line f i) = [].
Proof. destruct f; split; reflexivity. Qed.

Lemma step_fifo c s :
  queue_call c ->
  result (step c s) = Return tt /\
  task_queue s ++ enqueued (printed (step c s))
  = dequeued (printed (step c s)) ++ task_queue (final (step c s)).
Proof.
  destruct c as [f u d now | f_get f_upd1 f_upd2 draw | f_connect f_create f_load];
    simpl; intros A; [| |contradiction].
  - destruct f as [e|].
    + rewrite add_task_faulted. simpl. split; [reflexivity | apply app_nil_r].
    + rewrite add_task_stored by reflexivity. simpl. split; reflexivity.
  - unfold bind, result, final, printed.
    destruct (task_queue s) as [|i rest] eqn:Q.
    + rewrite (process_empty _ _ _ _ _ Q). simpl. rewrite Q. split; reflexivity.
    + destruct f_get as [e|].
      * rewrite (process_get_faulted _ _ _ _ _ _ _ Q). simpl.
        split; [reflexivity | now rewrite app_nil_r].
      * destruct (lookup i (db_manager s)) as [info|] eqn:L.
        -- rewrite (process_found _ _ _ _ _ _ _ Q L).
           cbn [fst snd ret task_queue]. split; [reflexivity|].
           unfold enqueued, dequeued. rewrite !flat_map_app.
           destruct (update_error_line_silent f_upd1 i) as [E1 D1].
           destruct (update_error_line_silent f_upd2 i) as [E2 D2].
           unfold enqueued, dequeued in E1, D1, E2, D2.
           rewrite E1, D1, E2, D2. simpl. now rewrite app_nil_r.
        -- rewrite (process_missing _ _ _ _ _ _ Q L). simpl.
           split; [reflexivity | now rewrite app_nil_r].
Qed.

Lemma run_fifo calls :
  Forall queue_call calls ->
  forall s,
    task_queue s ++ enqueued (printed (run calls s))
    = dequeued (printed (run calls s)) ++ task_queue (final (run calls s)).
Proof.
  induction 1 as [|c cs Hc Hcs IH]; intros s.
  - simpl. apply app_nil_r.
  - rewrite run_cons. destruct (step_fifo c s Hc) as [Hr Hq].
    specialize (IH (final (step c s))).
    unfold result, final, printed in *.
    destruct (step c s) as [[[u | e] s1] out1]; simpl in *; [|discriminate].
    destruct (run cs s1) as [[r s2] out2]; simpl in *.
    unfold enqueued, dequeued in *. rewrite !flat_map_app.
    rewrite app_assoc, Hq, <- app_assoc, IH, app_assoc. reflexivity.
Qed.

(** *** The loop of the report *)

Lemma report_step_eq acc t :
  TaskManager.report_step acc t =
  mkTally
    (processed_count acc + (if is_done t then 1 else 0))
    (unprocessed_count acc + (if is_unresolved t then 1 else 0))
    (processed_list acc ++ (if is_done t then [t] else []))
    (unprocessed_list acc ++ (if is_unresolved t then [t] else [])).
Proof.
  unfold TaskManager.report_step, is_done, is_unresolved.
  destruct acc as [pc uc pl ul]. cbn [processed_count unprocessed_count
                                      processed_list unprocessed_list].
  destruct (String.eqb_spec (status t) DONE) as [E | E].
  - rewrite E. simpl. now rewrite Z.add_0_r, app_nil_r.
  - destruct (String.eqb_spec (status t) FAILED) as [F | F]; simpl.
    + now rewrite Z.add_0_r, app_nil_r.
    + destruct ((status t =? PENDING)%string || (status t =? IN_PROGRESS)%string).
      * now rewrite Z.add_0_r, app_nil_r.
      * now rewrite !Z.add_0_r, !app_nil_r.
Qed.

Lemma report_fold rows :
  forall acc,
    fold_left TaskManager.report_step rows acc =
    mkTally
      (processed_count acc + Z.of_nat (List.length (filter is_done rows)))
      (unprocessed_count acc + Z.of_nat (List.length (filter is_unresolved rows)))
      (processed_list acc ++ filter is_done rows)
      (unprocessed_list acc ++ filter is_unresolved rows).
Proof.
  induction rows as [|t rows IH]; intros acc.
  - simpl. destruct acc. simpl. now rewrite !Z.add_0_r, !app_nil_r.
  - simpl fold_left. rewrite IH, report_step_eq.
    cbn [processed_count unprocessed_count processed_list unprocessed_list filter].
    destruct (is_done t), (is_unresolved t);
      cbn [List.length app]; rewrite <- ?app_assoc; cbn [app];
      rewrite ?app_nil_r, ?Nat2Z.inj_succ; f_equal; lia.
Qed.

Lemma known_status_sorted t :
  known_status (status t) ->
  (is_done t = true /\ is_unresolved t = false) \/
  (is_done t = false /\ is_unresolved t = true).
Proof.
  unfold is_done, is_unresolved.
  intros [-> | [-> | [-> | ->]]]; simpl; auto.
Qed.

Lemma known_rows_split rows :
  known_rows rows ->
  (List.length (filter is_done rows) + List.length (filter is_unresolved rows)
   = List.length rows)%nat.
Proof.
  induction 1 as [|t rows Ht Hrows IH]; [reflexivity|]. simpl.
  destruct (known_status_sorted t Ht) as [[-> ->] | [-> ->]]; simpl; lia.
Qed.

Lemma is_done_status t : is_done t = true -> status t = DONE.
Proof. unfold is_done. intros H. now apply String.eqb_eq. Qed.

Lemma is_unresolved_status t :
  is_unresolved t = true ->
  status t = FAILED \/ status t = PENDING \/ status t = IN_PROGRESS.
Proof.
  unfold is_unresolved. intros H.
  apply orb_true_iff in H. destruct H as [H | H];
    [apply orb_true_iff in H; destruct H as [H | H]|];
    apply String.eqb_eq in H; auto.
Qed.

Lemma has_known_status_spec t :
  has_known_status t = true <-> known_status (status t).
Proof.
  unfold has_known_status, known_status. split.
  - intros H. apply orb_true_iff in H. destruct H as [H | H].
    + apply is_done_status in H. tauto.
    + apply is_unresolved_status in H. tauto.
  - unfold is_done, is_unresolved.
    intros [-> | [-> | [-> | ->]]]; reflexivity.
Qed.

Lemma report_lengths rows :
  (List.length (filter is_done rows) + List.length (filter is_unresolved rows)
   = List.length (filter has_known_status rows))%nat.
Proof.
  induction rows as [|t rows IH]; [reflexivity|]. simpl.
  change (has_known_status t) with (is_done t || is_unresolved t).
  destruct (is_done t) eqn:D.
  - apply is_done_status in D. unfold is_unresolved at 1. rewrite D.
    simpl. lia.
  - destruct (is_unresolved t); simpl; lia.
Qed.

Lemma all_rows_counted rows :
  List.length (filter has_known_status rows) = List.length rows
  <-> known_rows rows.
Proof.
  unfold known_rows. induction rows as [|t rows IH]; simpl.
  - split; [constructor | reflexivity].
  - pose proof (filter_length_le has_known_status rows) as Le.
    destruct (has_known_status t) eqn:K; simpl; split.
    + intros H. constructor; [now apply has_known_status_spec|].
      apply IH. lia.
    + intros H. inversion H as [|x l Ht Hl]; subst.
      f_equal. now apply IH.
    + intros H. lia.
    + intros H. inversion H as [|x l Ht Hl]; subst.
      apply has_known_status_spec in Ht. congruence.
Qed.

Lemma written_known f st i rows :
  known_status st -> known_rows rows -> known_rows (written f st i rows).
Proof.
  intros K H. unfold written. destruct (refused f); [exact H|].
  unfold known_rows in *. rewrite Forall_forall in *.
  intros t' H'. apply in_map_iff in H'. destruct H' as [t [<- Ht]].
  unfold set_status. destruct (id t =? i); simpl; auto.
Qed.

Lemma known_rows_step c s :
  known_rows (tasks (db_manager s)) ->
  known_rows (tasks (db_manager (final (step c s)))).
Proof.
  intros H. rewrite step_final.
  destruct c as [f u d now | f_get f_upd1 f_upd2 draw | f_connect f_create f_load].
  - assert (A : known_rows (tasks (db_manager s)
                               ++ [mkTask (next_rowid (db_manager s)) u d PENDING now])).
    { apply Forall_app. split; [exact H|].
      constructor; [|constructor]. left. reflexivity. }
    destruct f as [e|]; [|exact A].
    unfold inserted. destruct (refused (Some e)); [exact H | exact A].
  - destruct (task_queue s) as [|i rest]; [exact H|].
    destruct f_get as [e|]; [exact H|].
    destruct (lookup i (db_manager s)); [|exact H]. simpl.
    apply written_known.
    + destruct (drawn_status_terminal draw) as [-> | ->];
        unfold known_status; tauto.
    + apply written_known; [unfold known_status; tauto | exact H].
  - destruct f_connect, f_create; exact H.
Qed.

Lemma known_rows_run calls s :
  known_rows (tasks (db_manager s)) ->
  known_rows (tasks (db_manager (final (run calls s)))).
Proof.
  intros H.
  apply (run_keeps (fun _ => True)
           (fun s => known_rows (tasks (db_manager s))) (fun _ _ => True)); auto.
  - intros c s0 _ H0. split; [now apply known_rows_step | exact Logic.I].
  - apply Forall_forall. intros; exact Logic.I.
Qed.

Lemma find_by_id_appended rows t :
  ~ In (id t) (map id rows) ->
  find (fun x => id x =? id t) (rows ++ [t]) = Some t.
Proof.
  induction rows as [|a rows IH]; simpl; intros H.
  - now rewrite Z.eqb_refl.
  - destruct (Z.eqb_spec (id a) (id t)) as [E | E].
    + exfalso. apply H. now left.
    + apply IH. intros K. apply H. now right.
Qed.

(** * The claims *)




(** C2: when the deque is not empty and the table has no row for the id at
    its head, [process_next_task] takes that id out, returns [False] without
    raising, prints the "not found" line, leaves the table untouched and the
    rest of the deque in place; the next call then resolves the next id. *)
Theorem missing_task_is_skipped f_get f_upd1 f_upd2 draw s i rest :
  task_queue s = i :: rest ->
  lookup i (db_manager s) = None ->
  let r := TaskManager.process_next_task f_get f_upd1 f_upd2 draw s in
  result r = Return false
  /\ final r = mkManager (db_manager s) rest
  /\ printed r = get_error_line f_get i ++ [MsgNotFound i]
  /\ (forall next rest' info draw',
         rest = next :: rest' ->
         lookup next (db_manager s) = Some info ->
         let r' := TaskManager.process_next_task None None None draw' (final r) in
         result r' = Return true
         /\ task_queue (final r') = rest'
         /\ status_of next (db_manager (final r')) = Some (drawn_status draw')).
Proof.
  intros Q L r.
  assert (E : r = (Return false, mkManager (db_manager s) rest,
                   get_error_line f_get i ++ [MsgNotFound i])).
  { subst r. destruct f_get as [e|].
    - now rewrite (process_get_faulted _ _ _ _ _ _ _ Q).
    - now rewrite (process_missing _ _ _ _ _ _ Q L). }
  rewrite E. split; [reflexivity | split; [reflexivity | split; [reflexivity|]]].
  intros next rest' info draw' -> Ln r'. subst r'.
  unfold final. cbn [fst snd].
  rewrite (process_found None None draw' (mkManager (db_manager s) (next :: rest'))
             next rest' info eq_refl Ln).
  split; [reflexivity | split; [reflexivity|]].
  unfold status_of, lookup. cbn [fst snd db_manager tasks].
  rewrite !status_written. unfold lookup in Ln. rewrite Ln.
  unfold status_after. simpl. now rewrite Z.eqb_refl.
Qed.

Lemma missing_task_is_skipped_witness :
  task_queue stray_head = [1; 2]
  /\ lookup 1 (db_manager stray_head) = None
  /\ result (TaskManager.process_next_task None None None 0 stray_head)
     = Return false.
Proof.
  split; [reflexivity | split; [reflexivity|]].
  apply (missing_task_is_skipped None None None 0 stray_head 1 [2]); reflexivity.
Defined.

(** C3, as the specification states it, fails: on a system with one pending
    task, a [process_next_task] during which the storage engine refuses the
    closing status finds the row, runs to its end and returns [True], and
    the row is left [IN_PROGRESS]; one during which it refuses the read
    returns [False] and the row is left [PENDING]. *)
Lemma closing_status_can_be_lost :
  task_queue one_pending = [1]
  /\ lookup 1 (db_manager one_pending) = Some (mkTask 1 "UserA" "a" PENDING "t1")
  /\ (let r := TaskManager.process_next_task None None (Some disk_full) 0
                 one_pending in
      result r = Return true
      /\ task_queue (final r) = []
      /\ status_of 1 (db_manager (final r)) = Some IN_PROGRESS)
  /\ (let r := TaskManager.process_next_task (Some disk_full) None None 0
                 one_pending in
      result r = Return false
      /\ task_queue (final r) = []
      /\ status_of 1 (db_manager (final r)) = Some PENDING)
  /\ ~ terminal IN_PROGRESS /\ ~ terminal PENDING.
Proof.
  repeat split; intros [H | H]; discriminate H.
Qed.

(** C3, amended: when [process_next_task] takes an id whose row is in the
    table, and the storage engine answers the read and takes the closing
    status during the call, the call returns [True] and the status of the
    row is then [DONE] or [FAILED], neither [PENDING] nor [IN_PROGRESS]. *)
Theorem resolved_task_is_terminal f_upd1 draw s i rest info :
  task_queue s = i :: rest ->
  lookup i (db_manager s) = Some info ->
  let r := TaskManager.process_next_task None f_upd1 None draw s in
  result r = Return true
  /\ exists st,
       status_of i (db_manager (final r)) = Some st
       /\ (st = DONE \/ st = FAILED)
       /\ st <> PENDING /\ st <> IN_PROGRESS.
Proof.
  intros Q L r. subst r. rewrite (process_found _ _ _ _ _ _ _ Q L).
  split; [reflexivity|]. exists (drawn_status draw).
  unfold final, status_of, lookup. cbn [fst snd db_manager tasks].
  rewrite close_after_start.
  change (map (set_status (drawn_status draw) i) (tasks (db_manager s)))
    with (written None (drawn_status draw) i (tasks (db_manager s))).
  rewrite status_written. unfold lookup in L. rewrite L.
  unfold status_after. simpl. rewrite Z.eqb_refl. split; [reflexivity|].
  unfold drawn_status. destruct (rand_lt_0_8 draw);
    repeat split; auto; discriminate.
Qed.

Lemma resolved_task_is_terminal_witness :
  task_queue one_pending = [1]
  /\ lookup 1 (db_manager one_pending) = Some (mkTask 1 "UserA" "a" PENDING "t1")
  /\ result (TaskManager.process_next_task None None None 0 one_pending)
     = Return true.
Proof.
  split; [reflexivity | split; [reflexivity|]].
  apply (resolved_task_is_terminal None 0 one_pending 1 []
           (mkTask 1 "UserA" "a" PENDING "t1")); reflexivity.
Defined.



(** C5, as the specification states it, fails: from the empty system, one
    [add_task] followed by one [process_next_task] during which the storage
    engine refuses the read leaves an empty deque next to a table with one
    [PENDING] row. *)
Lemma queue_misses_open_task :
  Forall queue_call refused_read_run
  /\ task_queue (final (run refused_read_run empty_system)) = []
  /\ filter is_open (tasks (db_manager (final (run refused_read_run empty_system))))
     = [mkTask 1 "UserA" "a" PENDING "t1"]
  /\ List.length (task_queue (final (run refused_read_run empty_system)))
     <> List.length
          (filter is_open
             (tasks (db_manager (final (run refused_read_run empty_system))))).
Proof.
  split; [repeat constructor|].
  split; [reflexivity|]. split; [reflexivity|].
  vm_compute. discriminate.
Qed.

(** C5, amended: after any sequence of [add_task] and [process_next_task]
    calls from the empty system, under any faults, the deque holds no id
    twice and only ids of rows with status [PENDING] or [IN_PROGRESS]; and
    when no insert of the sequence fails at its [commit] and the storage
    engine answers the reads and takes the closing status of every
    [process_next_task] of the sequence, the deque is as long as the table
    has rows with status [PENDING] or [IN_PROGRESS] and holds the id of each
    of them. *)
Theorem queue_counts_open_tasks calls :
  let s := final (run calls empty_system) in
  NoDup (task_queue s)
  /\ (forall t, In t (tasks (db_manager s)) -> In (id t) (task_queue s) ->
                status t = PENDING \/ status t = IN_PROGRESS)
  /\ (Forall store_answers calls ->
      List.length (task_queue s)
      = List.length (filter is_open (tasks (db_manager s)))
      /\ (forall t, In t (tasks (db_manager s)) -> is_open t = true ->
                    In (id t) (task_queue s))).
Proof.
  intros s.
  destruct (consistent_run calls empty_system consistent_empty)
    as [(_ & N & _ & O) _].
  fold s in N, O. split; [exact N | split].
  - intros t H Q. apply open_text_cases. exact (O t H Q).
  - intros A.
    destruct (synced_run calls empty_system A synced_empty) as [K Q].
    fold s in K, Q. rewrite Q. split; [apply length_map|].
    intros t H Ot. apply in_map. apply filter_In. now split.
Qed.

Lemma queue_counts_open_tasks_witness :
  Forall store_answers demo
  /\ List.length (task_queue (final (run demo empty_system)))
     = List.length
         (filter is_open (tasks (db_manager (final (run demo empty_system))))).
Proof.
  assert (A : Forall store_answers demo).
  { repeat constructor. }
  split; [exact A|].
  exact (proj1 (proj2 (proj2 (queue_counts_open_tasks demo)) A)).
Defined.

(** C6: along any interleaving of [add_task] and [process_next_task] calls,
    under any faults, the ids taken from the deque are, in that order, the
    first of the ids that were put into it (those it held at the start, then
    those appended): the k-th id dequeued is the k-th id enqueued.  Each
    [process_next_task] takes the id at the head and leaves the rest in
    place, each [add_task] leaves what is queued in place and appends at
    most one id behind it. *)
Theorem dequeue_order_is_enqueue_order calls s :
  Forall queue_call calls ->
  let r := run calls s in
  task_queue s ++ enqueued (printed r)
  = dequeued (printed r) ++ task_queue (final r)
  /\ (forall k i,
         nth_error (dequeued (printed r)) k = Some i ->
         nth_error (task_queue s ++ enqueued (printed r)) k = Some i)
  /\ (forall f_get f_upd1 f_upd2 draw s0 i rest,
         task_queue s0 = i :: rest ->
         let r0 := TaskManager.process_next_task f_get f_upd1 f_upd2 draw s0 in
         task_queue (final r0) = rest /\ dequeued (printed r0) = [i])
  /\ (forall f u d now s0,
         let r0 := TaskManager.add_task f u d now s0 in
         task_queue (final r0) = task_queue s0 ++ enqueued (printed r0)
         /\ (List.length (enqueued (printed r0)) <= 1)%nat).
Proof.
  intros A r. pose proof (run_fifo calls A s) as E. fold r in E.
  split; [exact E | split; [|split]].
  - intros k i H. rewrite E. rewrite nth_error_app1; [exact H|].
    apply nth_error_Some. rewrite H. discriminate.
  - intros f_get f_upd1 f_upd2 draw s0 i rest Q r0. subst r0.
    destruct f_get as [e|].
    + rewrite (process_get_faulted _ _ _ _ _ _ _ Q). split; reflexivity.
    + destruct (lookup i (db_manager s0)) as [info|] eqn:L.
      * rewrite (process_found _ _ _ _ _ _ _ Q L). split; [reflexivity|].
        unfold printed, dequeued. cbn [snd]. rewrite !flat_map_app.
        destruct (update_error_line_silent f_upd1 i) as [_ D1].
        destruct (update_error_line_silent f_upd2 i) as [_ D2].
        unfold dequeued in D1, D2. rewrite D1, D2. reflexivity.
      * rewrite (process_missing _ _ _ _ _ _ Q L). split; reflexivity.
  - intros [e|] u d now s0 r0; subst r0.
    + rewrite add_task_faulted. simpl. rewrite app_nil_r. split; [reflexivity | lia].
    + rewrite add_task_stored by reflexivity. simpl. split; [reflexivity | lia].
Qed.

Lemma dequeue_order_is_enqueue_order_witness :
  Forall queue_call demo
  /\ enqueued (printed (run demo empty_system)) = [1; 2; 3; 4]
  /\ dequeued (printed (run demo empty_system)) = [1; 2]
  /\ task_queue empty_system ++ enqueued (printed (run demo empty_system))
     = dequeued (printed (run demo empty_system))
       ++ task_queue (final (run demo empty_system)).
Proof.
  assert (A : Forall queue_call demo).
  { repeat constructor. }
  split; [exact A | split; [reflexivity | split; [reflexivity|]]].
  exact (proj1 (dequeue_order_is_enqueue_order demo empty_system A)).
Defined.

(** C7: when [DBManager.add_task] with user [u] and description [d] (and the
    default status) succeeds and returns [i], [get_task_by_id i], the storage
    engine answering the read, returns the task with id [i], user [u],
    description [d] and status [PENDING]. *)
Theorem add_then_get_round_trip f u d now c i :
  result (DBManager.add_task f u d PENDING now c) = Return (Some i) ->
  exists t,
    result (DBManager.get_task_by_id None i
              (final (DBManager.add_task f u d PENDING now c)))
    = Return (Some t)
    /\ id t = i /\ user t = u /\ description t = d /\ status t = PENDING.
Proof.
  destruct c as [rows sq]. destruct f as [e|]; intros H.
  - destruct e; discriminate H.
  - injection H as H. subst i.
    exists (mkTask (next_rowid (mkConnection rows sq)) u d PENDING now).
    split; [|repeat split].
    pose proof (find_by_id_appended rows
                  (mkTask (next_rowid (mkConnection rows sq)) u d PENDING now)
                  (next_rowid_fresh (mkConnection rows sq))) as F.
    run_py. cbn [id] in F. rewrite F. reflexivity.
Qed.

Lemma add_then_get_round_trip_witness :
  result (DBManager.add_task None "UserA" "a" PENDING "t1" (mkConnection [] 0))
  = Return (Some 1)
  /\ exists t,
       result (DBManager.get_task_by_id None 1
                 (final (DBManager.add_task None "UserA" "a" PENDING "t1"
                           (mkConnection [] 0))))
       = Return (Some t)
       /\ id t = 1 /\ user t = "UserA" /\ description t = "a"
       /\ status t = PENDING.
Proof.
  split; [reflexivity|].
  apply (add_then_get_round_trip None "UserA" "a" "t1" (mkConnection [] 0) 1).
  reflexivity.
Defined.

(** C8: on an empty deque [process_next_task] returns [False] without
    raising, prints the "queue is empty" line and changes nothing: the table
    and the deque are as before. *)
Theorem empty_queue_is_left_alone f_get f_upd1 f_upd2 draw s :
  task_queue s = [] ->
  let r := TaskManager.process_next_task f_get f_upd1 f_upd2 draw s in
  result r = Return false
  /\ printed r = [MsgQueueEmpty]
  /\ final r = s
  /\ tasks (db_manager (final r)) = tasks (db_manager s)
  /\ task_queue (final r) = [].
Proof.
  intros Q r. subst r. rewrite (process_empty _ _ _ _ _ Q).
  unfold result, printed, final. simpl. auto.
Qed.

Lemma empty_queue_is_left_alone_witness :
  task_queue empty_system = []
  /\ result (TaskManager.process_next_task None None None 0 empty_system)
     = Return false.
Proof.
  split; [reflexivity|].
  exact (proj1 (empty_queue_is_left_alone None None None 0 empty_system eq_refl)).
Defined.

(** C9, as the specification states it, fails: the table takes any status
    text, and a row whose status is none of the four texts falls through the
    [if]/[elif] chain of [generate_report].  With one row inserted with such
    a status, the report counts one task and lists it in neither list. *)
Lemma report_leaves_rows_out :
  tasks (db_manager one_archived) = [mkTask 1 "UserA" "a" "Archived" "t1"]
  /\ TaskManager.generate_report None one_archived
     = (Return tt, one_archived, [MsgReport 1 0 0 [] []])
  /\ (List.length (processed_list
                     (TaskManager.report_loop (tasks (db_manager one_archived))))
      + List.length (unprocessed_list
                       (TaskManager.report_loop (tasks (db_manager one_archived))))
      <> List.length (tasks (db_manager one_archived)))%nat.
Proof.
  split; [reflexivity | split; [reflexivity|]]. vm_compute. discriminate.
Qed.

(** C9, amended: [generate_report] sorts the rows that [get_all_tasks] reads
    (the storage engine answering the read) into two lists, for every
    table: the first list is made of the rows with status [DONE], the second
    of the rows with status [FAILED], [PENDING] or [IN_PROGRESS], a row with
    another status text is in neither, and the two counters are the lengths
    of the lists.  The two lengths add up to the number of rows whose status
    is one of the four texts; that is the number of all rows exactly when
    every status in the table is one of the four, which is so after every
    run from the empty system. *)
Theorem report_partitions_tasks :
  (forall s,
      let all := tasks (db_manager s) in
      let r := TaskManager.report_loop all in
      TaskManager.generate_report None s
      = (Return tt, s,
         [MsgReport (Z.of_nat (List.length all))
                    (processed_count r) (unprocessed_count r)
                    (processed_list r) (unprocessed_list r)])
      /\ processed_list r = filter is_done all
      /\ unprocessed_list r = filter is_unresolved all
      /\ (forall t, In t all -> status t = DONE -> In t (processed_list r))
      /\ (forall t, In t all ->
                    status t = FAILED \/ status t = PENDING
                    \/ status t = IN_PROGRESS ->
                    In t (unprocessed_list r))
      /\ processed_count r = Z.of_nat (List.length (processed_list r))
      /\ unprocessed_count r = Z.of_nat (List.length (unprocessed_list r))
      /\ (known_rows all ->
          (List.length (processed_list r) + List.length (unprocessed_list r)
           = List.length all)%nat)
      /\ (forall t, In t (processed_list r) -> In t all /\ status t = DONE)
      /\ (forall t, In t (unprocessed_list r) ->
                    In t all
                    /\ (status t = FAILED \/ status t = PENDING
                        \/ status t = IN_PROGRESS))
      /\ (forall t, ~ known_status (status t) ->
                    ~ In t (processed_list r) /\ ~ In t (unprocessed_list r))
      /\ (List.length (processed_list r) + List.length (unprocessed_list r)
          = List.length (filter has_known_status all))%nat
      /\ ((List.length (processed_list r) + List.length (unprocessed_list r)
           = List.length all)%nat
          <-> known_rows all))
  /\ (forall calls,
         let all := tasks (db_manager (final (run calls empty_system))) in
         let r := TaskManager.report_loop all in
         (List.length (processed_list r) + List.length (unprocessed_list r)
          = List.length all)%nat).
Proof.
  assert (L : forall rows,
             TaskManager.report_loop rows
             = mkTally (Z.of_nat (List.length (filter is_done rows)))
                       (Z.of_nat (List.length (filter is_unresolved rows)))
                       (filter is_done rows) (filter is_unresolved rows)).
  { intros rows. unfold TaskManager.report_loop. now rewrite report_fold. }
  split.
  - intros s all r.
    split; [destruct s as [[rows sq] q]; reflexivity|].
    subst r. rewrite L.
    cbn [processed_count unprocessed_count processed_list unprocessed_list].
    split; [reflexivity|]. split; [reflexivity|].
    split; [|split; [|split; [|split; [|split; [|split; [|split; [|split;
      [|split]]]]]]]].
    + intros t H E. apply filter_In. split; [exact H|].
      unfold is_done. now rewrite E.
    + intros t H E. apply filter_In. split; [exact H|].
      unfold is_unresolved. destruct E as [-> | [-> | ->]]; reflexivity.
    + reflexivity.
    + reflexivity.
    + apply known_rows_split.
    + intros t H. apply filter_In in H. destruct H as [H D].
      split; [exact H | now apply is_done_status].
    + intros t H. apply filter_In in H. destruct H as [H U].
      split; [exact H | now apply is_unresolved_status].
    + intros t N. split; intros H; apply filter_In in H; destruct H as [_ H];
        apply N; unfold known_status.
      * apply is_done_status in H. tauto.
      * apply is_unresolved_status in H. tauto.
    + apply report_lengths.
    + rewrite report_lengths. apply all_rows_counted.
  - intros calls all r. subst r. rewrite L.
    cbn [processed_list unprocessed_list]. apply known_rows_split.
    subst all. apply known_rows_run. constructor.
Qed.

Lemma report_partitions_tasks_witness :
  known_rows (tasks (db_manager three_rows))
  /\ (List.length (processed_list
                     (TaskManager.report_loop (tasks (db_manager three_rows))))
      + List.length (unprocessed_list
                       (TaskManager.report_loop (tasks (db_manager three_rows))))
      = List.length (tasks (db_manager three_rows)))%nat.
Proof.
  assert (K : known_rows (tasks (db_manager three_rows))).
  { unfold known_rows, known_status. simpl. repeat constructor; tauto. }
  split; [exact K|].
  destruct (proj1 report_partitions_tasks three_rows)
    as (_ & _ & _ & _ & _ & _ & _ & H & _).
  exact (H K).
Defined.

(** C10: the insert checks nothing about its texts.  For every user text
    and description text [DBManager.add_task] (the storage engine taking the
    statement) appends a row with exactly these values and status [PENDING]
    and returns its id, which no row had before; the empty text is taken
    like any other, and [TaskManager.add_task] then enqueues that id.
    Whether an insert is taken never depends on the texts: under the same
    fault, any two pairs of texts get the same answer. *)
Theorem insert_accepts_any_text :
  (forall u d now c,
      let r := DBManager.add_task None u d PENDING now c in
      result r = Return (Some (next_rowid c))
      /\ ~ In (next_rowid c) (map id (tasks c))
      /\ tasks (final r) = tasks c ++ [mkTask (next_rowid c) u d PENDING now]
      /\ lookup (next_rowid c) (final r)
         = Some (mkTask (next_rowid c) u d PENDING now)
      /\ printed r = [])
  /\ (forall now c,
         result (DBManager.add_task None EmptyString EmptyString PENDING now c)
         = Return (Some (next_rowid c)))
  /\ (forall now s,
         let r := TaskManager.add_task None EmptyString EmptyString now s in
         result r = Return tt
         /\ task_queue (final r) = task_queue s ++ [next_rowid (db_manager s)]
         /\ tasks (db_manager (final r))
            = tasks (db_manager s)
              ++ [mkTask (next_rowid (db_manager s)) EmptyString EmptyString
                         PENDING now])
  /\ (forall f u d u' d' now c,
         result (DBManager.add_task f u d PENDING now c)
         = result (DBManager.add_task f u' d' PENDING now c)).
Proof.
  split; [|split; [|split]]; [| | |intros [[t|t]|] u d u' d' now [rows sq]; reflexivity].
  - intros u d now [rows sq] r. subst r.
    split; [reflexivity|]. split; [apply next_rowid_fresh|].
    split; [reflexivity|]. split; [|reflexivity].
    unfold lookup. run_py.
    apply (find_by_id_appended rows
             (mkTask (next_rowid (mkConnection rows sq)) u d PENDING now)).
    apply (next_rowid_fresh (mkConnection rows sq)).
  - intros now [rows sq]. reflexivity.
  - intros now s r. subst r. rewrite add_task_stored by reflexivity.
    repeat split.
Qed.

Lemma insert_accepts_any_text_witness :
  result (DBManager.add_task None EmptyString EmptyString PENDING "t1"
            (mkConnection [] 0))
  = Return (Some 1).
Proof.
  exact (proj1 (proj2 insert_accepts_any_text) "t1" (mkConnection [] 0)).
Defined.

(** * Further properties of the code *)

(** ** The table behind [DBManager] *)

Lemma rowcount_positive (p : task -> bool) rows :
  (0 <? Z.of_nat (List.length (filter p rows))) = existsb p rows.
Proof.
  induction rows as [|t rows IH]; simpl; [reflexivity|].
  destruct (p t); simpl; [|exact IH].
  apply Z.ltb_lt. lia.
Qed.

Lemma map_set_status_fields st i rows :
  map user (map (set_status st i) rows) = map user rows
  /\ map description (map (set_status st i) rows) = map description rows
  /\ map timestamp (map (set_status st i) rows) = map timestamp rows
  /\ map status (map (set_status st i) rows)
     = map (fun t => if id t =? i then st else status t) rows.
Proof.
  rewrite !map_map. repeat split; apply map_ext; intros t; unfold set_status;
    destruct (id t =? i); reflexivity.
Qed.


Lemma max_rowid_app rows t :
  max_rowid (rows ++ [t]) = Z.max (max_rowid rows) (Z.max (id t) 0).
Proof.
  induction rows as [|a rows IH]; simpl; [lia|]. rewrite IH. lia.
Qed.

Lemma max_rowid_nonneg rows : 0 <= max_rowid rows.
Proof. induction rows as [|a rows IH]; simpl; lia. Qed.


(** X1: [update_task_status], the storage engine taking the statement,
    returns [True] exactly when some row has the id, prints nothing, and
    changes nothing but the status of the rows with that id: ids, users,
    descriptions, timestamps and the number of rows are as before. *)
Theorem update_changes_one_status i st c :
  let r := DBManager.update_task_status None i st c in
  result r = Return (existsb (fun t => id t =? i) (tasks c))
  /\ printed r = []
  /\ sqlite_sequence (final r) = sqlite_sequence c
  /\ map id (tasks (final r)) = map id (tasks c)
  /\ map user (tasks (final r)) = map user (tasks c)
  /\ map description (tasks (final r)) = map description (tasks c)
  /\ map timestamp (tasks (final r)) = map timestamp (tasks c)
  /\ map status (tasks (final r))
     = map (fun t => if id t =? i then st else status t) (tasks c).
Proof.
  destruct c as [rows sq]. cbv zeta.
  destruct (map_set_status_fields st i rows) as (U & D & T & S).
  run_py. rewrite rowcount_positive, map_set_status_ids.
  repeat split; assumption.
Qed.



(** X3: after [update_task_status i st] on a row that is there,
    [get_task_by_id i] returns that row with status [st] and its other
    fields as before, whatever [st] and the former status are: the update
    checks neither the text nor the move. *)
Theorem update_then_get i st c t :
  lookup i c = Some t ->
  let r := DBManager.update_task_status None i st c in
  result r = Return true
  /\ result (DBManager.get_task_by_id None i (final r))
     = Return (Some (mkTask i (user t) (description t) st (timestamp t))).
Proof.
  destruct c as [rows sq]. unfold lookup. simpl. intros H. cbv zeta.
  pose proof (find_by_id_some _ _ _ H) as [Hin Hid].
  run_py. rewrite rowcount_positive, find_set_status, H. simpl.
  unfold set_status. rewrite Hid, Z.eqb_refl. split; [|reflexivity].
  f_equal. apply existsb_exists. exists t. split; [exact Hin|].
  now rewrite Hid, Z.eqb_refl.
Qed.

Lemma update_then_get_witness :
  lookup 1 (db_manager three_rows) = Some (mkTask 1 "UserA" "a" DONE "t1")
  /\ result (DBManager.get_task_by_id None 1
               (final (DBManager.update_task_status None 1 PENDING
                         (db_manager three_rows))))
     = Return (Some (mkTask 1 "UserA" "a" PENDING "t1")).
Proof.
  split; [reflexivity|].
  exact (proj2 (update_then_get 1 PENDING (db_manager three_rows)
                  (mkTask 1 "UserA" "a" DONE "t1") eq_refl)).
Defined.

(** X4: on a table with its primary key, [get_task_by_id i] returns a task
    exactly when [get_all_tasks] lists it with id [i]; it returns [None]
    exactly when no listed task has id [i]. *)
Theorem get_agrees_with_get_all i c :
  primary_key c ->
  (forall t,
      result (DBManager.get_task_by_id None i c) = Return (Some t)
      <-> (exists rows,
              result (DBManager.get_all_tasks None c) = Return rows
              /\ In t rows /\ id t = i))
  /\ (result (DBManager.get_task_by_id None i c) = Return None
      <-> forall t, In t (tasks c) -> id t <> i).
Proof.
  destruct c as [rows sq]. unfold primary_key. simpl. intros K.
  assert (G : result (DBManager.get_task_by_id None i (mkConnection rows sq))
              = Return (find (fun t => id t =? i) rows)).
  { run_py. now destruct (find (fun t => id t =? i) rows). }
  rewrite G. split.
  - intros t. split.
    + intros H. injection H as H. apply find_by_id_some in H.
      exists rows. split; [reflexivity | exact H].
    + intros (rows' & E & Hin & Hid). injection E as <-.
      assert (P : In i (map id rows)) by (rewrite <- Hid; now apply in_map).
      destruct (find_by_id_present _ _ P) as [t' F]. rewrite F.
      apply find_by_id_some in F. destruct F as [Hin' Hid'].
      do 2 f_equal. apply (same_id_same_row rows); congruence.
  - split.
    + intros H. injection H as H. intros t Hin Hid.
      assert (P : In i (map id rows)) by (rewrite <- Hid; now apply in_map).
      destruct (find_by_id_present _ _ P) as [t' F]. congruence.
    + intros H. destruct (find (fun t => id t =? i) rows) as [t|] eqn:F;
        [|reflexivity].
      apply find_by_id_some in F. destruct F as [Hin Hid].
      exfalso. exact (H t Hin Hid).
Qed.

Lemma get_agrees_with_get_all_witness :
  primary_key (db_manager three_rows)
  /\ result (DBManager.get_task_by_id None 2 (db_manager three_rows))
     = Return (Some (mkTask 2 "UserB" "b" FAILED "t2")).
Proof.
  assert (K : primary_key (db_manager three_rows)).
  { unfold primary_key. simpl.
    repeat (constructor; [simpl; intuition discriminate|]). constructor. }
  split; [exact K|].
  apply (proj1 (get_agrees_with_get_all 2 (db_manager three_rows) K)).
  exists (tasks (db_manager three_rows)).
  split; [reflexivity | split; [simpl; tauto | reflexivity]].
Defined.

(** X5: two inserts in a row, the storage engine taking both, return ids
    that follow each other: the first is larger than every id of the table
    and than the counter of [AUTOINCREMENT], the second is the first plus
    one; each row is stored with exactly the status text that was passed. *)
Theorem inserts_get_consecutive_ids u d st now u' d' st' now' c :
  let r1 := DBManager.add_task None u d st now c in
  let r2 := DBManager.add_task None u' d' st' now' (final r1) in
  exists i,
    result r1 = Return (Some i)
    /\ result r2 = Return (Some (i + 1))
    /\ (forall t, In t (tasks c) -> id t < i)
    /\ sqlite_sequence c < i
    /\ tasks (final r2)
       = tasks c ++ [mkTask i u d st now; mkTask (i + 1) u' d' st' now'].
Proof.
  destruct c as [rows sq]. cbv zeta. exists (next_rowid (mkConnection rows sq)).
  assert (N : next_rowid
                (mkConnection
                   (rows ++ [mkTask (next_rowid (mkConnection rows sq)) u d st now])
                   (next_rowid (mkConnection rows sq)))
              = next_rowid (mkConnection rows sq) + 1).
  { unfold next_rowid at 1. simpl. rewrite max_rowid_app. simpl.
    unfold next_rowid. simpl. pose proof (max_rowid_nonneg rows). lia. }
  split; [reflexivity|]. split; [run_py; now rewrite N|].
  split; [|split].
  - intros t H. simpl in H. apply max_rowid_bound in H.
    unfold next_rowid. simpl. lia.
  - unfold next_rowid. simpl. lia.
  - run_py. rewrite N, <- app_assoc. reflexivity.
Qed.

Lemma inserts_get_consecutive_ids_witness :
  exists i,
    result (DBManager.add_task None "UserA" "a" PENDING "t1"
              (db_manager three_rows)) = Return (Some i)
    /\ (forall t, In t (tasks (db_manager three_rows)) -> id t < i)
    /\ i = 4.
Proof.
  destruct (inserts_get_consecutive_ids "UserA" "a" PENDING "t1"
              "UserB" "b" PENDING "t2" (db_manager three_rows))
    as (i & H1 & _ & H3 & _).
  exists i. split; [exact H1 | split; [exact H3|]].
  injection H1 as <-. reflexivity.
Defined.

(** ** What a run keeps of the table *)








Lemma ascending_snoc (l : list Z) x :
  StronglySorted Z.lt l -> (forall y, In y l -> y < x) ->
  StronglySorted Z.lt (l ++ [x]).
Proof.
  induction 1 as [|a l Hl IH Ha]; simpl; intros H.
  - constructor; constructor.
  - constructor.
    + apply IH. intros y Hy. apply H. now right.
    + apply Forall_app. split; [exact Ha|].
      constructor; [|constructor]. apply H. now left.
Qed.

Lemma ascending_step c s :
  ascending (db_manager s) -> ascending (db_manager (final (step c s))).
Proof.
  intros A. rewrite step_final. unfold ascending in *.
  destruct c as [f u d now | f_get f_upd1 f_upd2 draw | f_connect f_create f_load].
  - assert (P : StronglySorted Z.lt
                 (map id (tasks (db_manager s)
                          ++ [mkTask (next_rowid (db_manager s)) u d PENDING now]))).
    { rewrite map_app. simpl. apply ascending_snoc; [exact A|].
      intros y Hy. apply in_map_iff in Hy. destruct Hy as [t [<- Ht]].
      apply max_rowid_bound in Ht. unfold next_rowid. lia. }
    destruct f as [e|]; [|exact P].
    unfold inserted. destruct (refused (Some e)); [exact A | exact P].
  - destruct (task_queue s) as [|i rest]; [exact A|].
    destruct f_get as [e|]; [exact A|].
    destruct (lookup i (db_manager s)); [|exact A].
    simpl. now rewrite !written_ids.
  - destruct f_connect, f_create; exact A.
Qed.





(** ** Construction and restart *)

Lemma load_eq f s :
  TaskManager._load_pending_tasks_to_queue f s =
  (Return tt,
   mkManager (db_manager s) (task_queue s ++ loaded_queue f (db_manager s)),
   get_all_error_line f
   ++ [MsgLoaded (List.length (task_queue s ++ loaded_queue f (db_manager s)));
       MsgQueueStatus (task_queue s ++ loaded_queue f (db_manager s))]).
Proof.
  destruct s as [[rows sq] q]. destruct f as [e|].
  - simpl. rewrite app_nil_r. reflexivity.
  - unfold TaskManager._load_pending_tasks_to_queue.
    unfold bind at 1. simpl. unfold bind at 1.
    match goal with
    | |- context [for_each ?r ?b ?s0] => rewrite (load_loop b load_body_eq r s0)
    end.
    reflexivity.
Qed.

(** X8: [_load_pending_tasks_to_queue] appends to the deque, behind what it
    holds, the ids of the rows with status [PENDING] or [IN_PROGRESS] in the
    order of the table, and clears nothing; the count it prints is the
    length of the whole deque.  When the storage engine refuses the read it
    appends nothing and prints the error before the count. *)
Theorem loader_appends_open_ids f s :
  let r := TaskManager._load_pending_tasks_to_queue f s in
  let loaded :=
    match f with
    | None => map id (filter is_open (tasks (db_manager s)))
    | Some _ => []
    end in
  result r = Return tt
  /\ final r = mkManager (db_manager s) (task_queue s ++ loaded)
  /\ printed r
     = get_all_error_line f
       ++ [MsgLoaded (List.length (task_queue s ++ loaded));
           MsgQueueStatus (task_queue s ++ loaded)].
Proof.
  cbv zeta. rewrite load_eq. destruct f; repeat split.
Qed.

Lemma init_eq f_load s :
  TaskManager.__init__ None None f_load s =
  (Return tt,
   mkManager (db_manager s) (loaded_queue f_load (db_manager s)),
   [MsgConnected; MsgTableChecked]
   ++ get_all_error_line f_load
   ++ [MsgLoaded (List.length (loaded_queue f_load (db_manager s)));
       MsgQueueStatus (loaded_queue f_load (db_manager s));
       MsgBanner]).
Proof.
  destruct s as [[rows sq] q].
  unfold TaskManager.__init__.
  unfold bind at 1. simpl. unfold bind at 1. simpl. unfold bind at 1. simpl.
  unfold bind at 1. rewrite load_eq. simpl.
  rewrite <- app_assoc. reflexivity.
Qed.

(** X9: the construction of a [TaskManager] is the one place where a storage
    error reaches the caller: it raises exactly when connecting or creating
    the table fails, after printing the error, and then leaves everything as
    it was.  Otherwise it returns with the table untouched and the deque
    rebuilt from it, empty when the storage engine refused the read. *)
Theorem construction_outcomes f_connect f_create f_load s :
  let r := TaskManager.__init__ f_connect f_create f_load s in
  (forall e,
      result r = Raise e
      <-> f_connect = Some e \/ (f_connect = None /\ f_create = Some e))
  /\ (forall e, f_connect = Some e -> r = (Raise e, s, [MsgConnectError e]))
  /\ (forall e,
         f_connect = None -> f_create = Some e ->
         r = (Raise e, s, [MsgConnected; MsgCreateTableError e]))
  /\ (f_connect = None -> f_create = None ->
      result r = Return tt
      /\ final r = mkManager (db_manager s) (loaded_queue f_load (db_manager s)))
  /\ tasks (db_manager (final r)) = tasks (db_manager s).
Proof.
  cbv zeta.
  destruct f_connect as [e1|]; [|destruct f_create as [e2|]].
  - assert (E : TaskManager.__init__ (Some e1) f_create f_load s
                = (Raise e1, s, [MsgConnectError e1])).
    { destruct s as [[rows sq] q]. reflexivity. }
    rewrite E. split; [|split; [|split; [|split]]];
      try (intros; discriminate); try reflexivity.
    + intros e. split.
      * intros H. injection H as ->. now left.
      * intros [H | [H _]]; [injection H as ->; reflexivity | discriminate].
    + intros e H. now injection H as ->.
  - assert (E : TaskManager.__init__ None (Some e2) f_load s
                = (Raise e2, s, [MsgConnected; MsgCreateTableError e2])).
    { destruct s as [[rows sq] q]. destruct e2; reflexivity. }
    rewrite E. split; [|split; [|split; [|split]]];
      try (intros; discriminate); try reflexivity.
    + intros e. split.
      * intros H. injection H as ->. now right.
      * intros [H | [_ H]]; [discriminate | injection H as ->; reflexivity].
    + intros e _ H. now injection H as ->.
  - rewrite init_eq. split; [|split; [|split; [|split]]];
      try (intros; discriminate); try reflexivity.
    + intros e. split; [discriminate|].
      intros [H | [_ H]]; discriminate.
    + intros _ _. split; reflexivity.
Qed.

Lemma construction_outcomes_witness :
  TaskManager.__init__ None (Some disk_full) None one_pending
  = (Raise disk_full, one_pending, [MsgConnected; MsgCreateTableError disk_full])
  /\ final (TaskManager.__init__ None None None one_pending)
     = mkManager (db_manager one_pending) [1].
Proof.
  destruct (construction_outcomes None (Some disk_full) None one_pending)
    as (_ & _ & H & _).
  destruct (construction_outcomes None None None one_pending)
    as (_ & _ & _ & K & _).
  split; [exact (H disk_full eq_refl eq_refl) | exact (proj2 (K eq_refl eq_refl))].
Defined.





(** ** The order of processing *)

Lemma ascending_open_ids rows :
  StronglySorted Z.lt (map id rows) ->
  StronglySorted Z.lt (map id (filter is_open rows)).
Proof.
  induction rows as [|a rows IH]; simpl; intros H; [constructor|].
  inversion H as [|x l Hl Hx]; subst.
  destruct (is_open a); simpl; [|auto].
  constructor; [auto|].
  rewrite Forall_forall in *. intros y Hy. apply Hx.
  apply in_map_iff in Hy. destruct Hy as [t [E Ht]].
  apply filter_In in Ht. apply in_map_iff. exists t. tauto.
Qed.

Lemma ascending_run calls s :
  ascending (db_manager s) -> ascending (db_manager (final (run calls s))).
Proof.
  intros A.
  apply (run_keeps (fun _ => True) (fun s => ascending (db_manager s))
           (fun _ _ => True)); auto.
  - intros c s0 _ A0. split; [now apply ascending_step | exact Logic.I].
  - apply Forall_forall. intros; exact Logic.I.
Qed.

(** X11: the oldest task first.  After any run from the empty system during
    which no insert fails at its [commit] and the storage engine answers the
    reads and takes the closing status, the id at the head of the deque is
    the smallest id among the rows with status [PENDING] or [IN_PROGRESS];
    the next [process_next_task] finds its row, prints its user and
    description, returns [True] and leaves the other ids queued. *)
Theorem oldest_open_task_first calls i rest f_upd1 draw :
  Forall store_answers calls ->
  let s := final (run calls empty_system) in
  task_queue s = i :: rest ->
  exists info,
    lookup i (db_manager s) = Some info
    /\ is_open info = true
    /\ (forall t, In t (tasks (db_manager s)) -> is_open t = true -> i <= id t)
    /\ (let r := TaskManager.process_next_task None f_upd1 None draw s in
        result r = Return true
        /\ In (MsgProcessing i (user info) (description info)) (printed r)
        /\ task_queue (final r) = rest).
Proof.
  intros A s Q.
  destruct (synced_run calls empty_system A synced_empty) as [K E].
  fold s in K, E.
  assert (As : ascending (db_manager s)).
  { apply ascending_run. constructor. }
  assert (P : In i (map id (filter is_open (tasks (db_manager s))))).
  { rewrite <- E, Q. now left. }
  apply in_map_iff in P. destruct P as [t0 [Ei P]]. apply filter_In in P.
  destruct P as [Hin Ho].
  assert (Pi : In i (map id (tasks (db_manager s)))).
  { rewrite <- Ei. now apply in_map. }
  destruct (find_by_id_present _ _ Pi) as [info L].
  pose proof (find_by_id_some _ _ _ L) as [Hin' Ei'].
  assert (T : info = t0).
  { apply (same_id_same_row (tasks (db_manager s))); auto. congruence. }
  subst t0. exists info. split; [exact L | split; [exact Ho | split]].
  - intros t Ht Ot.
    pose proof (ascending_open_ids _ As) as S. rewrite <- E, Q in S.
    apply StronglySorted_inv in S. destruct S as [_ Hx].
    assert (M : In (id t) (i :: rest)).
    { rewrite <- Q, E. apply in_map. apply filter_In. now split. }
    destruct M as [M | M]; [lia|].
    rewrite Forall_forall in Hx. specialize (Hx _ M). lia.
  - cbv zeta. rewrite (process_found _ _ _ _ _ _ _ Q L).
    split; [reflexivity | split; [|reflexivity]].
    unfold printed. simpl. apply in_or_app. right. now left.
Qed.

Lemma oldest_open_task_first_witness :
  Forall store_answers demo
  /\ task_queue (final (run demo empty_system)) = [3; 4]
  /\ exists info,
       lookup 3 (db_manager (final (run demo empty_system))) = Some info
       /\ is_open info = true.
Proof.
  assert (A : Forall store_answers demo) by (repeat constructor).
  split; [exact A | split; [reflexivity|]].
  destruct (oldest_open_task_first demo 3 [4] None 0 A eq_refl)
    as (info & L & O & _).
  exists info. split; assumption.
Defined.

(** ** The two loops of the main program *)

Lemma process_round_step r s :
  exists b out,
    process_round r s = (Return b, final (step (round_call r) s), out)
    /\ (b = false -> task_queue s = [] \/ exists i, In (MsgNotFound i) out)
    /\ (forall i rest, task_queue s = i :: rest ->
                       task_queue (final (step (round_call r) s)) = rest)
    /\ (task_queue s = [] ->
        b = false /\ final (step (round_call r) s) = s /\ out = [MsgQueueEmpty]).
Proof.
  destruct r as [fg f1 f2 draw]. unfold process_round, round_call. simpl.
  unfold final, bind.
  destruct (task_queue s) as [|i rest] eqn:Q.
  - rewrite (process_empty _ _ _ _ _ Q). simpl.
    exists false, [MsgQueueEmpty].
    split; [reflexivity | split; [auto | split; [|auto]]].
    intros i rest H. discriminate H.
  - destruct fg as [e|].
    + rewrite (process_get_faulted _ _ _ _ _ _ _ Q). simpl.
      exists false, [MsgGetError i e; MsgNotFound i].
      split; [reflexivity | split; [|split; [|discriminate]]].
      * intros _. right. exists i. simpl. tauto.
      * intros j rest' H. now injection H as _ ->.
    + destruct (lookup i (db_manager s)) as [info|] eqn:L.
      * rewrite (process_found _ _ _ _ _ _ _ Q L). simpl.
        eexists true, _.
        split; [reflexivity | split; [discriminate | split; [|discriminate]]].
        intros j rest' H. now injection H as _ ->.
      * rewrite (process_missing _ _ _ _ _ _ Q L). simpl.
        exists false, [MsgNotFound i].
        split; [reflexivity | split; [|split; [|discriminate]]].
        -- intros _. right. exists i. simpl. tauto.
        -- intros j rest' H. now injection H as _ ->.
Qed.

Lemma process_round_found r s i rest :
  task_queue s = i :: rest ->
  round_get r = None ->
  In i (map id (tasks (db_manager s))) ->
  exists out, process_round r s = (Return true, final (step (round_call r) s), out).
Proof.
  intros Q G P. destruct r as [fg f1 f2 draw]. simpl in G. subst fg.
  destruct (find_by_id_present _ _ P) as [info L].
  unfold process_round, round_call. simpl. unfold final, bind.
  rewrite (process_found _ _ _ _ _ _ _ Q L). simpl. eexists. reflexivity.
Qed.

Lemma drain_loop_nil fuel rounds k s :
  task_queue s = [] -> drain_loop fuel rounds k s = (Return tt, s, []).
Proof.
  intros Q. destruct fuel as [|fuel]; [reflexivity|].
  simpl. unfold bind at 1, get. simpl. rewrite Q. reflexivity.
Qed.

Lemma drain_loop_cons fuel rounds k s i rest :
  task_queue s = i :: rest ->
  drain_loop (S fuel) rounds k s =
  (ok <- process_round (rounds k) ;;
   if ok then drain_loop fuel rounds (S k) else ret tt) s.
Proof.
  intros Q. simpl. unfold bind at 1, get. simpl. rewrite Q.
  destruct ((ok <- process_round (rounds k) ;;
             if ok then drain_loop fuel rounds (S k) else ret tt) s)
    as [[res s2] out2].
  reflexivity.
Qed.

Section Loops.

Variable allowed : round -> Prop.
Variable I : manager -> Prop.
Variable R : manager -> manager -> Prop.

Hypothesis R_refl : forall s, R s s.
Hypothesis R_trans : forall s1 s2 s3, R s1 s2 -> R s2 s3 -> R s1 s3.
Hypothesis round_keeps :
  forall r s, allowed r -> I s ->
              I (final (step (round_call r) s))
              /\ R s (final (step (round_call r) s)).

Lemma process_up_to_keeps rounds :
  forall s, Forall allowed rounds -> I s ->
            result (process_up_to rounds s) = Return tt
            /\ I (final (process_up_to rounds s))
            /\ R s (final (process_up_to rounds s)).
Proof.
  induction rounds as [|r rounds IH]; intros s Hall Hs.
  - simpl. repeat split; auto.
  - inversion Hall as [|x l Hr Hrs]; subst.
    destruct (round_keeps r s Hr Hs) as [I1 R1].
    destruct (process_round_step r s) as (b & out & E & _).
    set (s1 := final (step (round_call r) s)) in *. clearbody s1.
    simpl. unfold bind. rewrite E.
    destruct b.
    + destruct (IH s1 Hrs I1) as (Res & I2 & R2).
      unfold result, final in Res, I2, R2 |- *.
      destruct (process_up_to rounds s1) as [[res s2] out2].
      simpl in Res, I2, R2 |- *.
      split; [exact Res | split; [exact I2 | exact (R_trans _ _ _ R1 R2)]].
    + unfold result, final. simpl. repeat split; auto.
Qed.

Lemma drain_loop_keeps (rounds : nat -> round) fuel :
  (forall k, allowed (rounds k)) ->
  forall k s, I s ->
              result (drain_loop fuel rounds k s) = Return tt
              /\ I (final (drain_loop fuel rounds k s))
              /\ R s (final (drain_loop fuel rounds k s)).
Proof.
  intros Hall. induction fuel as [|fuel IH]; intros k s Hs.
  - simpl. repeat split; auto.
  - destruct (task_queue s) as [|i rest] eqn:Q.
    + rewrite (drain_loop_nil _ _ _ _ Q). repeat split; auto.
    + rewrite (drain_loop_cons _ _ _ _ _ _ Q).
      destruct (round_keeps (rounds k) s (Hall k) Hs) as [I1 R1].
      destruct (process_round_step (rounds k) s) as (b & out & E & _).
      set (s1 := final (step (round_call (rounds k)) s)) in *. clearbody s1.
      unfold bind. rewrite E.
      destruct b.
      * destruct (IH (S k) s1 I1) as (Res & I2 & R2).
        unfold result, final in Res, I2, R2 |- *.
        destruct (drain_loop fuel rounds (S k) s1) as [[res s2] out2].
        simpl in Res, I2, R2 |- *.
        split; [exact Res | split; [exact I2 | exact (R_trans _ _ _ R1 R2)]].
      * unfold result, final. simpl. repeat split; auto.
Qed.

End Loops.

Lemma synced_consistent s : synced s -> consistent s.
Proof.
  intros [K Q]. unfold consistent. rewrite Q.
  split; [exact K | split; [now apply NoDup_open_ids | split]].
  - intros i H. apply in_map_iff in H. destruct H as [t [E H]].
    apply filter_In in H. apply in_map_iff. exists t. tauto.
  - intros t H H'. apply in_map_iff in H'. destruct H' as [t2 [E H2]].
    apply filter_In in H2. destruct H2 as [H2 O2].
    now rewrite <- (same_id_same_row _ _ _ K H2 H E).
Qed.


Lemma rest_of_refl l : rest_of l l.
Proof. now exists []. Qed.


Lemma round_takes_head r s :
  rest_of (task_queue s) (task_queue (final (step (round_call r) s)))
  /\ map id (tasks (db_manager (final (step (round_call r) s))))
     = map id (tasks (db_manager s)).
Proof.
  unfold round_call. rewrite step_final.
  destruct (task_queue s) as [|i rest] eqn:Q.
  - rewrite Q. split; [apply rest_of_refl | reflexivity].
  - assert (P : rest_of (i :: rest) rest) by now exists [i].
    destruct (round_get r); [split; [exact P | reflexivity]|].
    destruct (lookup i (db_manager s)); [|split; [exact P | reflexivity]].
    split; [exact P|]. simpl. now rewrite !written_ids.
Qed.




Lemma drain_eq rounds s :
  drain rounds s = drain_loop (List.length (task_queue s)) rounds 0 s.
Proof.
  unfold drain, bind, get.
  destruct (drain_loop (List.length (task_queue s)) rounds 0 s) as [[res s2] out2].
  reflexivity.
Qed.





Lemma drain_loop_reads rounds fuel :
  (forall k, round_get (rounds k) = None) ->
  forall k s,
    (forall i, In i (task_queue s) -> In i (map id (tasks (db_manager s)))) ->
    (List.length (task_queue s) <= fuel)%nat ->
    task_queue (final (drain_loop fuel rounds k s)) = [].
Proof.
  intros G. induction fuel as [|fuel IH]; intros k s C H.
  - destruct (task_queue s) as [|i rest] eqn:Q; [|simpl in H; lia].
    simpl. unfold final. simpl. exact Q.
  - destruct (task_queue s) as [|i rest] eqn:Q.
    + rewrite (drain_loop_nil _ _ _ _ Q). unfold final. simpl. exact Q.
    + rewrite (drain_loop_cons _ _ _ _ _ _ Q).
      assert (P : In i (map id (tasks (db_manager s)))).
      { apply C. now left. }
      destruct (process_round_found (rounds k) s i rest Q (G k) P) as [out E].
      destruct (round_takes_head (rounds k) s) as [_ Hid].
      destruct (process_round_step (rounds k) s) as (_ & _ & _ & _ & Hc & _).
      pose proof (Hc i rest Q) as Q1.
      set (s1 := final (step (round_call (rounds k)) s)) in *.
      unfold bind. rewrite E.
      assert (C1 : forall j, In j (task_queue s1) ->
                             In j (map id (tasks (db_manager s1)))).
      { intros j Hj. rewrite Hid. apply C. right. now rewrite <- Q1. }
      assert (H1 : (List.length (task_queue s1) <= fuel)%nat).
      { rewrite Q1. simpl in H. lia. }
      pose proof (IH (S k) s1 C1 H1) as Hq.
      unfold final in Hq |- *.
      destruct (drain_loop fuel rounds (S k) s1) as [[res s2] out2].
      exact Hq.
Qed.



(** ** The main program *)

Lemma returns_with_bind {A B} (P P1 : manager -> Prop)
  (Q : manager -> list main_line -> Prop) (m : Script A) (k : A -> Script B) :
  returns_with P m (fun s _ => P1 s) ->
  (forall a, returns_with P1 (k a) Q) ->
  (forall s o1 o2, Q s o2 -> Q s (o1 ++ o2)) ->
  returns_with P (script_bind m k) Q.
Proof.
  intros Hm Hk Hq s Hs.
  destruct (Hm s Hs) as (a & s1 & o1 & E1 & H1).
  destruct (Hk a s1 H1) as (b & s2 & o2 & E2 & H2).
  exists b, s2, (o1 ++ o2). unfold script_bind. rewrite E1, E2.
  split; [reflexivity | now apply Hq].
Qed.

Lemma returns_with_call {A} (P P1 : manager -> Prop) (m : Py manager A) :
  (forall s, P s -> exists a, result (m s) = Return a /\ P1 (final (m s))) ->
  returns_with P (call_method m) (fun s _ => P1 s).
Proof.
  intros H s Hs. destruct (H s Hs) as (a & Hr & Hf).
  unfold call_method, result, final in *.
  destruct (m s) as [[r s1] out]. simpl in *. subst r.
  exists a, s1, (map Line out). split; [reflexivity | exact Hf].
Qed.

Lemma returns_with_say (P : manager -> Prop) l :
  returns_with P (say l) (fun s _ => P s).
Proof. intros s Hs. exists tt, s, [l]. split; [reflexivity | exact Hs]. Qed.

Lemma main_stage_add rows0 n f u d now :
  f = None ->
  forall s, main_stage rows0 n s ->
            exists a, result (TaskManager.add_task f u d now s) = Return a
                      /\ main_stage rows0 (S n) (final (TaskManager.add_task f u d now s)).
Proof.
  intros -> s (Sy & Len & Kn). exists tt.
  split; [now rewrite add_task_stored|].
  change (TaskManager.add_task None u d now s)
    with (step (AddTask None u d now) s).
  split; [apply synced_step; [now left | exact Sy] | split].
  - rewrite step_final. simpl. rewrite length_app, Len. simpl. lia.
  - intros K0. apply known_rows_step. auto.
Qed.

Lemma main_stage_round rows0 n r s :
  store_answers (round_call r) -> main_stage rows0 n s ->
  main_stage rows0 n (final (step (round_call r) s)).
Proof.
  intros A (Sy & Len & Kn).
  split; [now apply synced_step | split].
  - destruct (round_takes_head r s) as [_ Hid].
    rewrite <- Len, <- (length_map id), Hid. apply length_map.
  - intros K0. apply known_rows_step. auto.
Qed.

Lemma main_tail_eq s :
  tasks (db_manager s) <> [] ->
  (display_all_tasks_status None ;;;
   call_method (TaskManager.generate_report None)) s
  = (Return tt, s, main_report_lines s).
Proof.
  destruct s as [[rows sq] q]. simpl. intros H.
  destruct rows as [|t rows]; [contradiction|].
  unfold main_report_lines. simpl tasks.
  unfold script_bind, display_all_tasks_status, script_bind, say, call_method.
  simpl. unfold TaskManager.report_loop. rewrite report_fold. reflexivity.
Qed.

Lemma calm_answers r : calm r -> store_answers (round_call r).
Proof. destruct r. unfold calm. simpl. tauto. Qed.

Lemma main_stage_loop rows0 n rounds :
  Forall calm rounds ->
  forall s, main_stage rows0 n s ->
            exists a, result (process_up_to rounds s) = Return a
                      /\ main_stage rows0 n (final (process_up_to rounds s)).
Proof.
  intros C s H. exists tt.
  destruct (process_up_to_keeps calm (main_stage rows0 n) (fun _ _ => True)
              (fun _ => Logic.I) (fun _ _ _ _ _ => Logic.I)
              (fun r0 s0 C0 H0 =>
                 conj (main_stage_round rows0 n r0 s0 (calm_answers r0 C0) H0)
                      Logic.I)
              rounds s C H) as (Res & St & _).
  split; assumption.
Qed.

Lemma main_stage_drain rows0 n rounds :
  (forall k, calm (rounds k)) ->
  forall s, main_stage rows0 n s ->
            exists a, result (drain rounds s) = Return a
                      /\ (main_stage rows0 n (final (drain rounds s))
                          /\ task_queue (final (drain rounds s)) = []).
Proof.
  intros C s H. exists tt. rewrite drain_eq.
  destruct (drain_loop_keeps calm (main_stage rows0 n) (fun _ _ => True)
              (fun _ => Logic.I) (fun _ _ _ _ _ => Logic.I)
              (fun r0 s0 C0 H0 =>
                 conj (main_stage_round rows0 n r0 s0 (calm_answers r0 C0) H0)
                      Logic.I)
              rounds (List.length (task_queue s)) C 0%nat s H) as (Res & St & _).
  split; [exact Res | split; [exact St|]].
  apply drain_loop_reads; [intros k; apply (C k) | | lia].
  apply synced_consistent. apply H.
Qed.

Lemma closed_rows_terminal rows :
  known_rows rows -> filter is_open rows = [] ->
  Forall (fun t => terminal (status t)) rows.
Proof.
  induction 1 as [|t rows Ht Hrows IH]; simpl; intros F; [constructor|].
  destruct (is_open t) eqn:O; [discriminate|].
  constructor; [|auto].
  unfold is_open in O. unfold terminal.
  destruct Ht as [E | [E | [E | E]]]; rewrite E in *; auto; discriminate O.
Qed.

(** X16: the main program, started on any table with its primary key and
    with a storage engine that raises no error, runs to its end and leaves
    nothing to do: the deque is empty, no row has status [PENDING] or
    [IN_PROGRESS] (the rows the table held before are resolved with the
    seven new ones), the table has seven rows more, and the last lines
    printed are the status table and the report of exactly these rows.
    When the statuses the table held were among the four texts, every
    status in it is then [DONE] or [FAILED]. *)
Theorem main_resolves_everything e db q :
  calm_main e ->
  primary_key db ->
  let r := main e (mkManager db q) in
  script_result r = Return tt
  /\ task_queue (script_final r) = []
  /\ filter is_open (tasks (db_manager (script_final r))) = []
  /\ List.length (tasks (db_manager (script_final r)))
     = (List.length (tasks db) + 7)%nat
  /\ (known_rows (tasks db) ->
      Forall (fun t => terminal (status t)) (tasks (db_manager (script_final r))))
  /\ (exists before,
         script_printed r = before ++ main_report_lines (script_final r)).
Proof.
  intros (Hc & Hcr & Hl & Ha & Hf & Hd & Hdi & Hre) K.
  set (rows0 := tasks db).
  set (Q := fun (s : manager) (out : list main_line) =>
              (main_stage rows0 7 s /\ task_queue s = [])
              /\ exists before, out = before ++ main_report_lines s).
  assert (Qmono : forall s o1 o2, Q s o2 -> Q s (o1 ++ o2)).
  { intros s o1 o2 [H [b Hb]]. split; [exact H|].
    exists (o1 ++ b). now rewrite Hb, app_assoc. }
  assert (M : returns_with (fun s => db_manager s = db) (main e) Q).
  { unfold main. rewrite Hc, Hcr, Hl, Hdi, Hre.
    apply (returns_with_bind _ (main_stage rows0 0) _ _ _); [| |exact Qmono].
    { apply returns_with_call. intros s Hs. exists tt. rewrite init_eq.
      split; [reflexivity|]. unfold final, main_stage. simpl. rewrite Hs.
      split; [split; [exact K | reflexivity]|].
      split; [subst rows0; simpl; lia | intros K0; exact K0]. }
    intros _.
    apply (returns_with_bind _ (main_stage rows0 1) _ _ _); [| |exact Qmono].
    { apply returns_with_call. apply main_stage_add. apply Ha. }
    intros _.
    apply (returns_with_bind _ (main_stage rows0 2) _ _ _); [| |exact Qmono].
    { apply returns_with_call. apply main_stage_add. apply Ha. }
    intros _.
    apply (returns_with_bind _ (main_stage rows0 3) _ _ _); [| |exact Qmono].
    { apply returns_with_call. apply main_stage_add. apply Ha. }
    intros _.
    apply (returns_with_bind _ (main_stage rows0 4) _ _ _); [| |exact Qmono].
    { apply returns_with_call. apply main_stage_add. apply Ha. }
    intros _.
    apply (returns_with_bind _ (main_stage rows0 5) _ _ _); [| |exact Qmono].
    { apply returns_with_call. apply main_stage_add. apply Ha. }
    intros _.
    apply (returns_with_bind _ (main_stage rows0 5) _ _ _); [| |exact Qmono].
    { apply returns_with_say. }
    intros _.
    apply (returns_with_bind _ (main_stage rows0 5) _ _ _); [| |exact Qmono].
    { apply returns_with_call. apply main_stage_loop. repeat constructor; apply Hf. }
    intros _.
    apply (returns_with_bind _ (main_stage rows0 6) _ _ _); [| |exact Qmono].
    { apply returns_with_call. apply main_stage_add. apply Ha. }
    intros _.
    apply (returns_with_bind _ (main_stage rows0 7) _ _ _); [| |exact Qmono].
    { apply returns_with_call. apply main_stage_add. apply Ha. }
    intros _.
    apply (returns_with_bind _
             (fun s => main_stage rows0 7 s /\ task_queue s = []) _ _ _);
      [| |exact Qmono].
    { apply returns_with_call. apply main_stage_drain. exact Hd. }
    intros _.
    apply (returns_with_bind _
             (fun s => main_stage rows0 7 s /\ task_queue s = []) _ _ _);
      [| |exact Qmono].
    { apply returns_with_say. }
    intros _ s Hs. exists tt, s, (main_report_lines s).
    split; [|split; [exact Hs | now exists []]].
    apply main_tail_eq. destruct Hs as [(_ & Len & _) _].
    intros E. rewrite E in Len. simpl in Len. lia. }
  cbv zeta.
  destruct (M (mkManager db q) eq_refl)
    as (a & s' & out & E & ((Sy & Len & Kn) & Hq) & Hout).
  rewrite E. unfold script_result, script_final, script_printed. simpl.
  assert (F : filter is_open (tasks (db_manager s')) = []).
  { destruct Sy as [_ Q2]. rewrite Hq in Q2. symmetry in Q2.
    now apply map_eq_nil in Q2. }
  destruct a.
  split; [reflexivity | split; [exact Hq | split; [exact F | split; [exact Len|]]]].
  split; [|exact Hout].
  intros K0. apply closed_rows_terminal; auto.
Qed.

Lemma main_resolves_everything_witness :
  calm_main steady_main
  /\ primary_key (db_manager one_pending)
  /\ task_queue (script_final (main steady_main one_pending)) = []
  /\ map status (tasks (db_manager (script_final (main steady_main one_pending))))
     = [DONE; DONE; DONE; DONE; DONE; DONE; DONE; DONE].
Proof.
  assert (C : calm_main steady_main).
  { unfold calm_main, calm. simpl. repeat split. }
  assert (K : primary_key (db_manager one_pending)).
  { unfold primary_key. simpl. constructor; [simpl; tauto | constructor]. }
  split; [exact C | split; [exact K | split]].
  - exact (proj1 (proj2 (main_resolves_everything steady_main
                           (db_manager one_pending) [1] C K))).
  - vm_compute. reflexivity.
Defined.

Lemma init_connect_fails e f_create f_load s :
  TaskManager.__init__ (Some e) f_create f_load s
  = (Raise e, s, [MsgConnectError e]).
Proof. destruct s as [[rows sq] q]. reflexivity. Qed.

Lemma init_create_fails e f_load s :
  TaskManager.__init__ None (Some e) f_load s
  = (Raise e, s, [MsgConnected; MsgCreateTableError e]).
Proof. destruct s as [[rows sq] q]. destruct e; reflexivity. Qed.

Lemma add_task_returns f u d now s :
  exists a, result (TaskManager.add_task f u d now s) = Return a /\ True.
Proof.
  exists tt. split; [|exact Logic.I]. destruct f as [e|].
  - now rewrite add_task_faulted.
  - now rewrite add_task_stored.
Qed.

Lemma display_eq f s :
  display_all_tasks_status f s
  = (Return tt, s,
     [LineStatusTitle] ++ map Line (get_all_error_line f)
     ++ [match f, tasks (db_manager s) with
         | None, _ :: _ => LineStatusTable (tasks (db_manager s))
         | _, _ => LineNoTasks
         end]).
Proof.
  destruct s as [[rows sq] q]. destruct f as [e|]; [reflexivity|].
  destruct rows; reflexivity.
Qed.

Lemma report_eq f s :
  TaskManager.generate_report f s
  = (Return tt, s,
     get_all_error_line f
     ++ [match f with
         | None =>
             MsgReport (Z.of_nat (List.length (tasks (db_manager s))))
               (processed_count (TaskManager.report_loop (tasks (db_manager s))))
               (unprocessed_count (TaskManager.report_loop (tasks (db_manager s))))
               (processed_list (TaskManager.report_loop (tasks (db_manager s))))
               (unprocessed_list (TaskManager.report_loop (tasks (db_manager s))))
         | Some _ => MsgReport 0 0 0 [] []
         end]).
Proof. destruct s as [[rows sq] q]. destruct f as [e|]; reflexivity. Qed.

(** X17: the main program stops with an error only at its first line: it
    raises exactly when connecting or creating the table fails, having
    printed the error and done nothing else.  Once the manager is
    constructed it runs to its end and returns normally whatever the storage
    engine refuses afterwards. *)
Theorem main_aborts_only_at_construction e s :
  (forall err,
      script_result (main e s) = Raise err
      <-> env_connect e = Some err
          \/ (env_connect e = None /\ env_create e = Some err))
  /\ (forall err,
         env_connect e = Some err ->
         main e s = (Raise err, s, [Line (MsgConnectError err)]))
  /\ (forall err,
         env_connect e = None -> env_create e = Some err ->
         main e s
         = (Raise err, s, [Line MsgConnected; Line (MsgCreateTableError err)]))
  /\ (env_connect e = None -> env_create e = None ->
      script_result (main e s) = Return tt).
Proof.
  assert (Rest : forall (P : manager -> Prop) (m : Py manager unit),
             (forall s0, exists a, result (m s0) = Return a /\ True) ->
             returns_with (fun _ => True) (call_method m) (fun _ _ => True)).
  { intros P m H. apply (returns_with_call (fun _ => True) (fun _ => True)).
    intros s0 _. apply H. }
  assert (T : forall (s0 : manager) (o1 o2 : list main_line), True -> True)
    by auto.
  assert (Ok : env_connect e = None -> env_create e = None ->
               script_result (main e s) = Return tt).
  { intros Hc Hcr.
    assert (M : returns_with (fun _ => True) (main e) (fun _ _ => True)).
    { unfold main, main_add. rewrite Hc, Hcr.
      apply (returns_with_bind _ (fun _ => True) _ _ _); [| |exact T].
      { apply (Rest (fun _ => True)). intros s0. exists tt. now rewrite init_eq. }
      intros _.
      do 5 (apply (returns_with_bind _ (fun _ => True) _ _ _); [| |exact T];
            [apply (Rest (fun _ => True)); intros s0; apply add_task_returns|];
            intros _).
      apply (returns_with_bind _ (fun _ => True) _ _ _); [| |exact T];
        [apply returns_with_say|]; intros _.
      apply (returns_with_bind _ (fun _ => True) _ _ _); [| |exact T].
      { apply (Rest (fun _ => True)). intros s0. exists tt. split; [|exact Logic.I].
        apply (process_up_to_keeps (fun _ => True) (fun _ => True)
                 (fun _ _ => True) (fun _ => Logic.I) (fun _ _ _ _ _ => Logic.I)
                 (fun _ _ _ _ => conj Logic.I Logic.I)).
        - apply Forall_forall. intros; exact Logic.I.
        - exact Logic.I. }
      intros _.
      do 2 (apply (returns_with_bind _ (fun _ => True) _ _ _); [| |exact T];
            [apply (Rest (fun _ => True)); intros s0; apply add_task_returns|];
            intros _).
      apply (returns_with_bind _ (fun _ => True) _ _ _); [| |exact T].
      { apply (Rest (fun _ => True)). intros s0. exists tt. split; [|exact Logic.I].
        rewrite drain_eq.
        apply (drain_loop_keeps (fun _ => True) (fun _ => True)
                 (fun _ _ => True) (fun _ => Logic.I) (fun _ _ _ _ _ => Logic.I)
                 (fun _ _ _ _ => conj Logic.I Logic.I)).
        - intros; exact Logic.I.
        - exact Logic.I. }
      intros _.
      apply (returns_with_bind _ (fun _ => True) _ _ _); [| |exact T];
        [apply returns_with_say|]; intros _.
      apply (returns_with_bind _ (fun _ => True) _ _ _); [| |exact T].
      { intros s0 _. rewrite display_eq. eexists tt, s0, _. split; reflexivity. }
      intros _.
      apply (Rest (fun _ => True)). intros s0. exists tt. now rewrite report_eq. }
    destruct (M s Logic.I) as (a & s' & out & E & _).
    rewrite E. now destruct a. }
  assert (Ec : forall err, env_connect e = Some err ->
                           main e s = (Raise err, s, [Line (MsgConnectError err)])).
  { intros err H. unfold main. rewrite H. unfold script_bind at 1.
    unfold call_method at 1. now rewrite init_connect_fails. }
  assert (Er : forall err, env_connect e = None -> env_create e = Some err ->
                           main e s = (Raise err, s,
                                       [Line MsgConnected;
                                        Line (MsgCreateTableError err)])).
  { intros err H H'. unfold main. rewrite H, H'. unfold script_bind at 1.
    unfold call_method at 1. now rewrite init_create_fails. }
  split; [|split; [exact Ec | split; [exact Er | exact Ok]]].
  intros err. destruct (env_connect e) as [e1|] eqn:Hc.
  - rewrite (Ec e1 eq_refl). unfold script_result. simpl. split.
    + intros H. injection H as ->. now left.
    + intros [H | [H _]]; [now injection H as -> | discriminate].
  - destruct (env_create e) as [e2|] eqn:Hcr.
    + rewrite (Er e2 eq_refl eq_refl). unfold script_result. simpl. split.
      * intros H. injection H as ->. now right.
      * intros [H | [_ H]]; [discriminate | now injection H as ->].
    + rewrite (Ok eq_refl eq_refl). split; [discriminate|].
      intros [H | [_ H]]; discriminate.
Qed.

Lemma main_aborts_only_at_construction_witness :
  main (mkMainEnv None (Some disk_full) None (fun _ => (None, "t"))
          (fun _ => steady) (fun _ => steady) None None) empty_system
  = (Raise disk_full, empty_system,
     [Line MsgConnected; Line (MsgCreateTableError disk_full)]).
Proof.
  destruct (main_aborts_only_at_construction
              (mkMainEnv None (Some disk_full) None (fun _ => (None, "t"))
                 (fun _ => steady) (fun _ => steady) None None) empty_system)
    as (_ & _ & H & _).
  exact (H disk_full eq_refl eq_refl).
Defined.

(** X18: when the storage engine refuses their read, the two views of the
    table show an empty database whatever the table holds: [get_all_tasks]
    prints the error and returns the empty list, so [generate_report] prints
    a report of no task and [display_all_tasks_status] prints the "no tasks"
    line.  Both return normally and leave the table and the deque as they
    were. *)
Theorem refused_read_shows_nothing s :
  (forall e,
      DBManager.get_all_tasks (Some e) (db_manager s)
      = (Return [], db_manager s, [MsgGetAllError e]))
  /\ (forall e,
         TaskManager.generate_report (Some e) s
         = (Return tt, s, [MsgGetAllError e; MsgReport 0 0 0 [] []]))
  /\ (forall e,
         display_all_tasks_status (Some e) s
         = (Return tt, s,
            [LineStatusTitle; Line (MsgGetAllError e); LineNoTasks])).
Proof.
  split; [|split].
  - intros e. destruct s as [[rows sq] q]. reflexivity.
  - intros e. now rewrite report_eq.
  - intros e. now rewrite display_eq.
Qed.

Lemma refused_read_shows_nothing_witness :
  TaskManager.generate_report (Some disk_full) three_rows
  = (Return tt, three_rows, [MsgGetAllError disk_full; MsgReport 0 0 0 [] []])
  /\ display_all_tasks_status (Some disk_full) three_rows
     = (Return tt, three_rows,
        [LineStatusTitle; Line (MsgGetAllError disk_full); LineNoTasks]).
Proof.
  destruct (refused_read_shows_nothing three_rows) as (_ & R & D).
  split; [exact (R disk_full) | exact (D disk_full)].
Defined.

(** X20: [display_all_tasks_status], the storage engine answering its read,
    returns normally and leaves the table and the deque as they were; after
    its title it prints the "no tasks" line when the table is empty and
    otherwise the table of all the rows, in the order of the table.  It
    prints the "no tasks" line exactly when the table is empty. *)
Theorem status_display_lists_rows s :
  (tasks (db_manager s) = [] ->
   display_all_tasks_status None s
   = (Return tt, s, [LineStatusTitle; LineNoTasks]))
  /\ (tasks (db_manager s) <> [] ->
      display_all_tasks_status None s
      = (Return tt, s, [LineStatusTitle; LineStatusTable (tasks (db_manager s))]))
  /\ (In LineNoTasks (script_printed (display_all_tasks_status None s))
      <-> tasks (db_manager s) = []).
Proof.
  split; [|split].
  - intros H. rewrite display_eq, H. reflexivity.
  - intros H. rewrite display_eq.
    destruct (tasks (db_manager s)); [contradiction | reflexivity].
  - rewrite display_eq. unfold script_printed. simpl.
    destruct (tasks (db_manager s)) as [|t rows]; split.
    + reflexivity.
    + intros _. right. now left.
    + intros [H | [H | []]]; discriminate H.
    + discriminate.
Qed.

Lemma status_display_lists_rows_witness :
  tasks (db_manager three_rows) <> []
  /\ display_all_tasks_status None three_rows
     = (Return tt, three_rows,
        [LineStatusTitle; LineStatusTable (tasks (db_manager three_rows))]).
Proof.
  assert (N : tasks (db_manager three_rows) <> []) by discriminate.
  split; [exact N|].
  exact (proj1 (proj2 (status_display_lists_rows three_rows)) N).
Defined.

(** X19: an id whose row cannot be read blocks both loops.  When the id at
    the head of the deque has no row, or the storage engine refuses the
    read, the loop [while manager.task_queue] (and likewise the loop
    [for _ in range(n)], for [n] at least 1) takes that one id, prints the
    "not found" line and stops: the table is untouched and every other id
    stays queued, unprocessed. *)
Theorem unreadable_head_stops_loops rounds r0 more s i rest :
  task_queue s = i :: rest ->
  lookup i (db_manager s) = None \/ round_get (rounds 0%nat) <> None ->
  lookup i (db_manager s) = None \/ round_get r0 <> None ->
  drain rounds s
  = (Return tt, mkManager (db_manager s) rest,
     get_error_line (round_get (rounds 0%nat)) i ++ [MsgNotFound i])
  /\ process_up_to (r0 :: more) s
     = (Return tt, mkManager (db_manager s) rest,
        get_error_line (round_get r0) i ++ [MsgNotFound i]).
Proof.
  intros Q H H0.
  assert (P : forall r, lookup i (db_manager s) = None \/ round_get r <> None ->
                        process_round r s
                        = (Return false, mkManager (db_manager s) rest,
                           get_error_line (round_get r) i ++ [MsgNotFound i])).
  { intros [fg f1 f2 draw] Hr. unfold process_round. simpl in *.
    destruct fg as [e|].
    - now rewrite (process_get_faulted _ _ _ _ _ _ _ Q).
    - destruct Hr as [L | N]; [|contradiction].
      now rewrite (process_missing _ _ _ _ _ _ Q L). }
  split.
  - rewrite drain_eq, Q. simpl List.length.
    rewrite (drain_loop_cons _ _ _ _ _ _ Q). unfold bind. rewrite (P _ H).
    simpl. now rewrite app_nil_r.
  - simpl. unfold bind. rewrite (P _ H0). simpl. now rewrite app_nil_r.
Qed.

Lemma unreadable_head_stops_loops_witness :
  task_queue stray_head = [1; 2]
  /\ lookup 1 (db_manager stray_head) = None
  /\ drain (fun _ => steady) stray_head
     = (Return tt, mkManager (db_manager stray_head) [2], [MsgNotFound 1]).
Proof.
  split; [reflexivity | split; [reflexivity|]].
  exact (proj1 (unreadable_head_stops_loops (fun _ => steady) steady []
                  stray_head 1 [2] eq_refl (or_introl eq_refl)
                  (or_introl eq_refl))).
Defined.


